(** * The metadata catalog core of the auto-tagging library

  A shallow embedding of [database.py], [file_manager.py], [tagging.py],
  [search.py] and [config.py], with [_get_or_create_tag] of [gui.py].

  - The SQLite store is four tables, each a list of rows in row order,
    with the AUTOINCREMENT counters.  Primary keys, the CHECK on the tag
    type, the two foreign keys of [file_tags] and their ON DELETE CASCADE
    are part of the statements that write; every connection of
    [Database] turns foreign keys on.
  - A connection carries the tables on disk and the tables as it sees
    them inside its open transaction; [commit], [rollback] and the
    [with conn:] block act on that pair.  One connection is modelled.
  - A call that logs takes a flag saying whether the store accepts the
    INSERT into [logs]; a refused insert raises, as a locked or full
    database does.
  - Text is a [string], one [ascii] per character, which UTF-8 writes in
    one byte below 128 and in two from there on; ids are unbounded
    integers; the timestamp of a log row is left out.  LIKE reads its
    operands up to the first NUL and refuses a pattern of more than 50000
    bytes.
  - [os.path] is [posixpath]; [os.path.exists] is a function handed to
    [verify_all_files]. *)

From Stdlib Require Import ZArith List Bool Ascii String Lia DecimalString.
From Stdlib Require Import Sorted Permutation.
Import ListNotations.

Local Open Scope string_scope.
Local Open Scope Z_scope.

(** ** Python strings *)

Module Str.

(** [p.rfind(c)], scanning left to right and remembering the last hit. *)
Fixpoint rfind_from (c : ascii) (p : string) (i last : Z) : Z :=
  match p with
  | EmptyString => last
  | String a r => rfind_from c r (i + 1) (if Ascii.eqb a c then i else last)
  end.

Definition rfind (c : ascii) (p : string) : Z := rfind_from c p 0 (-1).

(** [p[n:]] and [p[:n]] for a non-negative [n]. *)
Fixpoint drop (n : nat) (s : string) : string :=
  match n, s with
  | O, _ => s
  | S _, EmptyString => EmptyString
  | S n', String _ r => drop n' r
  end.

Fixpoint take (n : nat) (s : string) : string :=
  match n, s with
  | O, _ => EmptyString
  | S _, EmptyString => EmptyString
  | S n', String a r => String a (take n' r)
  end.

(** [s.rstrip(c)] *)
Fixpoint rstrip (c : ascii) (s : string) : string :=
  match s with
  | EmptyString => EmptyString
  | String a r =>
      match rstrip c r with
      | EmptyString => if Ascii.eqb a c then EmptyString else String a EmptyString
      | r' => String a r'
      end
  end.

(** [s == c * len(s)] *)
Fixpoint all_char (c : ascii) (s : string) : bool :=
  match s with
  | EmptyString => true
  | String a r => Ascii.eqb a c && all_char c r
  end.

Definition startswith (c : ascii) (s : string) : bool :=
  match s with
  | EmptyString => false
  | String a _ => Ascii.eqb a c
  end.

Fixpoint endswith (c : ascii) (s : string) : bool :=
  match s with
  | EmptyString => false
  | String a EmptyString => Ascii.eqb a c
  | String _ r => endswith c r
  end.

Definition is_empty (s : string) : bool :=
  match s with EmptyString => true | _ => false end.

(** [c in s] *)
Fixpoint mem (c : ascii) (s : string) : bool :=
  match s with
  | EmptyString => false
  | String a r => Ascii.eqb a c || mem c r
  end.

(** [str(n)] for a Python int. *)
Definition of_int (n : Z) : string := NilZero.string_of_int (Z.to_int n).

(** [str(v)] for an optional string: [None] prints as its name. *)
Definition of_opt (v : option string) : string :=
  match v with Some s => s | None => "None" end.

(** [c.isspace()] for a character below 256: the ASCII controls TAB to CR
    and FS to US, the space, NEL and the no-break space. *)
Definition is_space (a : ascii) : bool :=
  let n := N_of_ascii a in
  (((9 <=? n) && (n <=? 13)) || ((28 <=? n) && (n <=? 32)) || (n =? 133) || (n =? 160))%N.

(** [s.lstrip()], the whitespace form of [s.rstrip()], and [s.strip()] *)
Fixpoint lstrip_space (s : string) : string :=
  match s with
  | EmptyString => EmptyString
  | String a r => if is_space a then lstrip_space r else s
  end.

Fixpoint rstrip_space (s : string) : string :=
  match s with
  | EmptyString => EmptyString
  | String a r =>
      match rstrip_space r with
      | EmptyString => if is_space a then EmptyString else String a EmptyString
      | r' => String a r'
      end
  end.

Definition strip (s : string) : string := lstrip_space (rstrip_space s).

Definition line_feed : ascii := "010"%char.
Definition carriage_return : ascii := "013"%char.

(** The lines a text file yields when read with universal newlines, without
    their terminators: a line ends at LF, at CR LF or at a lone CR, and text
    after the last terminator is a line of its own. *)
Fixpoint file_lines (s : string) : list string :=
  match s with
  | EmptyString => []
  | String a r =>
      if Ascii.eqb a line_feed then EmptyString :: file_lines r
      else if Ascii.eqb a carriage_return then
        EmptyString :: file_lines (match r with
                                   | String b r' => if Ascii.eqb b line_feed then r' else r
                                   | EmptyString => r
                                   end)
      else
        match file_lines r with
        | [] => [String a EmptyString]
        | l :: ls => String a l :: ls
        end
  end.

(** The text as SQLite's C routines read it: up to the first NUL. *)
Definition nul : ascii := "000"%char.

Fixpoint c_string (s : string) : string :=
  match s with
  | EmptyString => EmptyString
  | String a r => if Ascii.eqb a nul then EmptyString else String a (c_string r)
  end.

(** [len(s.encode("utf-8"))] for characters below 256: one byte below 128,
    two from 128 on. *)
Fixpoint utf8_length (s : string) : Z :=
  match s with
  | EmptyString => 0
  | String a r => (if (N_of_ascii a <? 128)%N then 1 else 2) + utf8_length r
  end.

End Str.

(** ** [os.path] on a POSIX host *)

Module PosixPath.

Definition sep : ascii := "/"%char.

(** [i = p.rfind(sep) + 1; return p[i:]] *)
Definition basename (p : string) : string :=
  let i := Str.rfind sep p + 1 in
  Str.drop (Z.to_nat i) p.

(** [head = p[:i]; if head and head != sep*len(head): head = head.rstrip(sep)] *)
Definition dirname (p : string) : string :=
  let i := Str.rfind sep p + 1 in
  let head := Str.take (Z.to_nat i) p in
  if negb (Str.is_empty head) && negb (Str.all_char sep head)
  then Str.rstrip sep head
  else head.

(** [os.path.join(a, b)] with one component [b]. *)
Definition join (a b : string) : string :=
  if Str.startswith sep b then b
  else if Str.is_empty a || Str.endswith sep a then a ++ b
  else a ++ String sep b.

End PosixPath.

(** ** The store: tables, constraints and cascades of [Database.init_schema] *)

Module Store.

(** [files(id PK AUTOINCREMENT, file_path NOT NULL, name, metadata)] *)
Record FileRow := mkFile {
  file_id : Z;
  file_path : string;
  file_name : string;
  file_metadata : string
}.

(** [tags(id PK AUTOINCREMENT, name NOT NULL, type CHECK(...) NOT NULL)] *)
Record TagRow := mkTag {
  tag_id : Z;
  tag_name : string;
  tag_type : string
}.

(** [file_tags(file_id, tag_id, value, PK(file_id, tag_id))]; [value] may be NULL. *)
Record FileTagRow := mkFileTag {
  ft_file_id : Z;
  ft_tag_id : Z;
  ft_value : option string
}.

(** [logs(id PK AUTOINCREMENT, action NOT NULL, timestamp)]; the timestamp
    column is filled by the store's clock and is left out. *)
Record LogRow := mkLog {
  log_id : Z;
  log_action : string
}.

Record DB := mkDB {
  files : list FileRow;
  files_seq : Z;
  tags : list TagRow;
  tags_seq : Z;
  file_tags : list FileTagRow;
  logs : list LogRow;
  logs_seq : Z
}.

(** The store right after [init_schema] on a new database file. *)
Definition empty : DB := mkDB [] 0 [] 0 [] [] 0.

Definition set_files (fs : list FileRow) (db : DB) : DB :=
  mkDB fs (files_seq db) (tags db) (tags_seq db) (file_tags db) (logs db) (logs_seq db).

Definition set_file_tags (fts : list FileTagRow) (db : DB) : DB :=
  mkDB (files db) (files_seq db) (tags db) (tags_seq db) fts (logs db) (logs_seq db).

(** AUTOINCREMENT: one more than the largest rowid the table has ever held. *)
Definition next_rowid (seq : Z) (ids : list Z) : Z :=
  Z.max seq (fold_right Z.max 0 ids) + 1.

(** [INSERT INTO files (name, file_path, metadata) VALUES (?, ?, ?)] *)
Definition insert_file (name path metadata : string) (db : DB) : DB * Z :=
  let id := next_rowid (files_seq db) (map file_id (files db)) in
  (mkDB (files db ++ [mkFile id path name metadata])%list id
        (tags db) (tags_seq db) (file_tags db) (logs db) (logs_seq db), id).

(** [DELETE FROM files WHERE id=?], with the cascade on [file_tags.file_id]. *)
Definition delete_file (id : Z) (db : DB) : DB :=
  mkDB (filter (fun r => negb (file_id r =? id)) (files db)) (files_seq db)
       (tags db) (tags_seq db)
       (filter (fun r => negb (ft_file_id r =? id)) (file_tags db))
       (logs db) (logs_seq db).

(** [UPDATE files SET file_path = ?, name = ? WHERE file_path = ?] *)
Definition update_path_name_where_path (new_path new_name old_path : string) (db : DB) : DB :=
  set_files
    (map (fun r => if String.eqb (file_path r) old_path
                   then mkFile (file_id r) new_path new_name (file_metadata r)
                   else r) (files db)) db.

(** [UPDATE files SET file_path=? WHERE id=?] *)
Definition update_path_where_id (new_path : string) (id : Z) (db : DB) : DB :=
  set_files
    (map (fun r => if file_id r =? id
                   then mkFile (file_id r) new_path (file_name r) (file_metadata r)
                   else r) (files db)) db.

(** [CHECK(type IN ('boolean', 'numeric', 'string'))] *)
Definition type_ok (ty : string) : bool :=
  String.eqb ty "boolean" || String.eqb ty "numeric" || String.eqb ty "string".

(** [INSERT INTO tags (name, type) VALUES (?, ?)]; [None] when the CHECK fails. *)
Definition insert_tag (name ty : string) (db : DB) : option (DB * Z) :=
  if type_ok ty then
    let id := next_rowid (tags_seq db) (map tag_id (tags db)) in
    Some (mkDB (files db) (files_seq db) (tags db ++ [mkTag id name ty])%list id
               (file_tags db) (logs db) (logs_seq db), id)
  else None.

(** [DELETE FROM tags WHERE id = ?], with the cascade on [file_tags.tag_id]. *)
Definition delete_tag (id : Z) (db : DB) : DB :=
  mkDB (files db) (files_seq db)
       (filter (fun r => negb (tag_id r =? id)) (tags db)) (tags_seq db)
       (filter (fun r => negb (ft_tag_id r =? id)) (file_tags db))
       (logs db) (logs_seq db).

Definition has_file (id : Z) (db : DB) : bool :=
  existsb (fun r => file_id r =? id) (files db).

Definition has_tag (id : Z) (db : DB) : bool :=
  existsb (fun r => tag_id r =? id) (tags db).

Definition same_key (fid tid : Z) (r : FileTagRow) : bool :=
  (ft_file_id r =? fid) && (ft_tag_id r =? tid).

(** [INSERT OR REPLACE INTO file_tags (file_id, tag_id, value) VALUES (?, ?, ?)]:
    a row with the same primary key is deleted, the new row is inserted, and
    the statement fails ([None]) when a foreign key of the new row has no
    parent. *)
Definition replace_file_tag (fid tid : Z) (value : option string) (db : DB) : option DB :=
  let rows := (filter (fun r => negb (same_key fid tid r)) (file_tags db)
               ++ [mkFileTag fid tid value])%list in
  if has_file fid db && has_tag tid db then Some (set_file_tags rows db) else None.

(** [DELETE FROM file_tags WHERE file_id = ? AND tag_id = ?] *)
Definition delete_file_tag (fid tid : Z) (db : DB) : DB :=
  set_file_tags (filter (fun r => negb (same_key fid tid r)) (file_tags db)) db.

(** [INSERT INTO logs (action) VALUES (?)] *)
Definition insert_log (action : string) (db : DB) : DB :=
  let id := next_rowid (logs_seq db) (map log_id (logs db)) in
  mkDB (files db) (files_seq db) (tags db) (tags_seq db) (file_tags db)
       (logs db ++ [mkLog id action])%list id.

(** *** A connection

    [committed] is the state on disk; [working] is what the connection
    sees, including the writes of its open transaction. *)
Record Conn := mkConn {
  committed : DB;
  working : DB
}.

Definition fresh : Conn := mkConn empty empty.

Definition execute (f : DB -> DB) (c : Conn) : Conn :=
  mkConn (committed c) (f (working c)).

Definition commit (c : Conn) : Conn := mkConn (working c) (working c).

Definition rollback (c : Conn) : Conn := mkConn (committed c) (committed c).

Inductive DbError := IntegrityError | OperationalError.

Inductive Outcome (A : Type) :=
| Returned (a : A)
| Raised (e : DbError).

Arguments Returned {A} a.
Arguments Raised {A} e.

(** [with conn: body]: commit when the body returns, roll back and re-raise
    when it raises. *)
Definition with_conn {A} (body : Conn -> Outcome A * Conn) (c : Conn) : Outcome A * Conn :=
  match body c with
  | (Returned a, c') => (Returned a, commit c')
  | (Raised e, c') => (Raised e, rollback c')
  end.

(** [ORDER BY key ASC] on a text column under the BINARY collation; rows
    with equal keys keep their table order. *)
Fixpoint insert_by {A} (key : A -> string) (x : A) (l : list A) : list A :=
  match l with
  | [] => [x]
  | y :: r => if String.leb (key x) (key y) then x :: l else y :: insert_by key x r
  end.

Definition order_by {A} (key : A -> string) (l : list A) : list A :=
  fold_right (insert_by key) [] l.

End Store.

Import Store.

(** ** [FileManager] *)

Module FileManager.

(** [log_action]: insert the log row and commit.  The flag says whether the
    store accepts the insert; when it does not, the statement raises and
    nothing is written. *)
Definition log_action (accepted : bool) (action : string) (c : Conn) : Outcome unit * Conn :=
  if accepted
  then (Returned tt, commit (execute (insert_log action) c))
  else (Raised OperationalError, c).

Definition add_file (path metadata : string) (c : Conn) : Z * Conn :=
  let (db, id) := insert_file (PosixPath.basename path) path metadata (working c) in
  (id, commit (mkConn (committed c) db)).

Definition remove_file (id : Z) (c : Conn) : Conn :=
  commit (execute (delete_file id) c).

(** [SELECT id, name, file_path, metadata FROM files] *)
Definition select_row (r : FileRow) : Z * string * string * string :=
  (file_id r, file_name r, file_path r, file_metadata r).

Definition list_files (c : Conn) : list (Z * string * string * string) :=
  map select_row (files (working c)).

(** [fetchone()] of the rows with the given id; [None] when there is none. *)
Definition get_file (id : Z) (c : Conn) : option (Z * string * string * string) :=
  match filter (fun r => file_id r =? id) (files (working c)) with
  | [] => None
  | r :: _ => Some (select_row r)
  end.

Definition update_file_path (log_accepted : bool) (old_path new_path : string) (c : Conn)
  : Outcome unit * Conn :=
  let c1 := execute (update_path_name_where_path new_path (PosixPath.basename new_path) old_path) c in
  let c2 := commit c1 in
  log_action log_accepted ("Updated file path from " ++ old_path ++ " to " ++ new_path) c2.

(** One turn of the loop of [verify_all_files]; [path_exists] is
    [os.path.exists] on the host's file system. *)
Definition verify_one (path_exists : string -> bool) (c : Conn) (row : Z * string) : Conn :=
  let (id, path) := row in
  if negb (path_exists path) then
    let filename := PosixPath.basename path in
    let directory := PosixPath.dirname path in
    if path_exists (PosixPath.join directory filename) then
      let new_path := PosixPath.join directory filename in
      commit (execute (update_path_where_id new_path id) c)
    else c
  else c.

Definition verify_all_files (path_exists : string -> bool) (c : Conn) : Conn :=
  let rows := map (fun r => (file_id r, file_path r)) (files (working c)) in
  fold_left (verify_one path_exists) rows c.

(** [directories.add(dir_path)] on a set kept as a duplicate-free list. *)
Definition set_add (x : string) (s : list string) : list string :=
  if existsb (String.eqb x) s then s else (s ++ [x])%list.

(** [_get_watched_directories]: the directories of the distinct recorded
    paths that are not empty and exist. *)
Definition _get_watched_directories (path_exists : string -> bool) (c : Conn) : list string :=
  let paths := nodup string_dec (map file_path (files (working c))) in
  fold_left (fun directories path =>
               let dir_path := PosixPath.dirname path in
               if negb (Str.is_empty dir_path) && path_exists dir_path
               then set_add dir_path directories
               else directories) paths [].

End FileManager.

(** ** [TagManager] *)

Module TagManager.

Definition log_action (accepted : bool) (action : string) (c : Conn) : Outcome unit * Conn :=
  if accepted
  then (Returned tt, commit (execute (insert_log action) c))
  else (Raised OperationalError, c).

Definition create_tag (log_accepted : bool) (name tag_type : string) (c : Conn)
  : Outcome Z * Conn :=
  match insert_tag name tag_type (working c) with
  | None => (Raised IntegrityError, c)
  | Some (db, id) =>
      let c1 := commit (mkConn (committed c) db) in
      match log_action log_accepted
              ("Created tag: " ++ name ++ " (ID=" ++ Str.of_int id
               ++ ", type=" ++ tag_type ++ ")") c1 with
      | (Returned _, c2) => (Returned id, c2)
      | (Raised e, c2) => (Raised e, c2)
      end
  end.

Definition delete_tag (log_accepted : bool) (id : Z) (c : Conn) : Outcome unit * Conn :=
  with_conn (fun c0 =>
    let c1 := execute (Store.delete_tag id) c0 in
    log_action log_accepted ("Deleted tag with ID=" ++ Str.of_int id) c1) c.

Definition assign_tag_to_file (log_accepted : bool) (fid tid : Z) (value : option string)
  (c : Conn) : Outcome unit * Conn :=
  with_conn (fun c0 =>
    match replace_file_tag fid tid value (working c0) with
    | None => (Raised IntegrityError, c0)
    | Some db =>
        log_action log_accepted
          ("Assigned tag (ID=" ++ Str.of_int tid ++ ") to file (ID=" ++ Str.of_int fid
           ++ "), value=" ++ Str.of_opt value) (mkConn (committed c0) db)
    end) c.

Definition remove_tag_from_file (log_accepted : bool) (fid tid : Z) (c : Conn)
  : Outcome unit * Conn :=
  with_conn (fun c0 =>
    let c1 := execute (delete_file_tag fid tid) c0 in
    log_action log_accepted
      ("Removed tag (ID=" ++ Str.of_int tid ++ ") from file (ID=" ++ Str.of_int fid ++ ")") c1) c.

(** [SELECT tags.id, tags.name, tags.type, file_tags.value FROM tags
     JOIN file_tags ON tags.id = file_tags.tag_id WHERE file_tags.file_id = ?] *)
Definition get_tags_for_file (fid : Z) (c : Conn) : list (Z * string * string * option string) :=
  flat_map (fun t =>
    map (fun ft => (tag_id t, tag_name t, tag_type t, ft_value ft))
        (filter (fun ft => (tag_id t =? ft_tag_id ft) && (ft_file_id ft =? fid))
                (file_tags (working c))))
    (tags (working c)).

(** [SELECT id, name, type FROM tags ORDER BY name ASC] *)
Definition get_all_tags (c : Conn) : list (Z * string * string) :=
  map (fun t => (tag_id t, tag_name t, tag_type t))
      (order_by tag_name (tags (working c))).

(** [SELECT DISTINCT name FROM tags ORDER BY name ASC], first column of each row. *)
Definition get_all_tag_names (c : Conn) : list string :=
  order_by (fun name => name) (nodup string_dec (map tag_name (tags (working c)))).

End TagManager.

(** ** [SearchEngine] *)

Module SearchEngine.

(** SQLite folds the 26 ASCII upper-case letters before LIKE compares. *)
Definition lower (a : ascii) : ascii :=
  let n := N_of_ascii a in
  if ((65 <=? n) && (n <=? 90))%N then ascii_of_N (n + 32) else a.

Definition percent : ascii := "%"%char.
Definition underscore : ascii := "_"%char.

(** SQLite's [patternCompare] on two NUL-terminated strings, with the
    defaults of LIKE: [%] stands for any run of characters, [_] for any one
    character, there is no escape character, and letters compare without
    case. *)
Fixpoint pattern_compare (pat s : string) : bool :=
  match pat with
  | EmptyString => Str.is_empty s
  | String p pat' =>
      if Ascii.eqb p percent then
        (fix star (t : string) : bool :=
           pattern_compare pat' t ||
           match t with
           | EmptyString => false
           | String _ t' => star t'
           end) s
      else
        match s with
        | EmptyString => false
        | String a s' =>
            (Ascii.eqb p underscore || Ascii.eqb (lower p) (lower a))
            && pattern_compare pat' s'
        end
  end.

(** [s LIKE pat] once the pattern is accepted: [likeFunc] hands both
    operands to [patternCompare] as C strings, so each is read up to its
    first NUL. *)
Definition like (pat s : string) : bool :=
  pattern_compare (Str.c_string pat) (Str.c_string s).

(** SQLITE_MAX_LIKE_PATTERN_LENGTH, at its default. *)
Definition like_pattern_limit : Z := 50000.

(** [likeFunc] refuses a pattern of more bytes than the limit, whatever the
    text: the statement fails with "LIKE or GLOB pattern too complex". *)
Definition too_complex (pat : string) : bool :=
  like_pattern_limit <? Str.utf8_length pat.

(** [f"%{query}%"] *)
Definition pattern (query : string) : string :=
  String percent (query ++ String percent EmptyString).

(** [x LIKE pat] on a nullable column: NULL never satisfies the WHERE clause. *)
Definition like_null (pat : string) (x : option string) : bool :=
  match x with Some s => like pat s | None => false end.

(** [SELECT * FROM files WHERE file_path LIKE ?]; the WHERE clause is
    evaluated once per row, so a pattern over the limit raises as soon as
    there is a row. *)
Definition search_by_filename (query : string) (c : Conn) : Outcome (list FileRow) :=
  let query_str := pattern query in
  match files (working c) with
  | [] => Returned []
  | rows =>
      if too_complex query_str then Raised OperationalError
      else Returned (filter (fun r => like query_str (file_path r)) rows)
  end.

(** The right-hand side of a LEFT JOIN for one row of the left-hand side:
    the rows that satisfy the ON clause, or a single NULL row when none does. *)
Definition left_join {B} (on : B -> bool) (right : list B) : list (option B) :=
  match filter on right with
  | [] => [None]
  | rows => map Some rows
  end.

(** [files f LEFT JOIN file_tags ft ON f.id = ft.file_id
             LEFT JOIN tags t ON t.id = ft.tag_id]; with a NULL [ft] the
    second ON clause holds for no tag. *)
Definition joined (db : DB) : list (FileRow * option FileTagRow * option TagRow) :=
  flat_map (fun f =>
    flat_map (fun ft =>
      map (fun t => (f, ft, t))
          (left_join (fun t => match ft with
                               | Some r => tag_id t =? ft_tag_id r
                               | None => false
                               end) (tags db)))
      (left_join (fun ft => file_id f =? ft_file_id ft) (file_tags db)))
    (files db).

(** The WHERE clause of [search_all]. *)
Definition where_all (pat : string) (j : FileRow * option FileTagRow * option TagRow) : bool :=
  let '(f, ft, t) := j in
  like pat (file_path f)
  || like pat (file_name f)
  || like pat (file_metadata f)
  || like_null pat (option_map tag_name t)
  || like_null pat (match ft with Some r => ft_value r | None => None end).

Definition result_eq_dec (x y : Z * string * string * string) : {x = y} + {x <> y}.
Proof. repeat decide equality. Defined.

(** [SELECT DISTINCT f.id, f.name, f.file_path, f.metadata ... WHERE ...];
    the first LIKE of the WHERE clause is evaluated on every joined row. *)
Definition search_all (query : string) (c : Conn)
  : Outcome (list (Z * string * string * string)) :=
  let pat := pattern query in
  match joined (working c) with
  | [] => Returned []
  | rows =>
      if too_complex pat then Raised OperationalError
      else Returned (nodup result_eq_dec
                       (map (fun j => FileManager.select_row (fst (fst j)))
                            (filter (where_all pat) rows)))
  end.

(** [SELECT f.* FROM files f JOIN file_tags ft ON f.id = ft.file_id
     JOIN tags t ON t.id = ft.tag_id WHERE t.name = ?] *)
Definition search_by_tag_name (name : string) (c : Conn) : list FileRow :=
  flat_map (fun f =>
    flat_map (fun ft =>
      map (fun _ => f)
          (filter (fun t => (tag_id t =? ft_tag_id ft) && String.eqb (tag_name t) name)
                  (tags (working c))))
      (filter (fun ft => file_id f =? ft_file_id ft) (file_tags (working c))))
    (files (working c)).

(** [... WHERE t.name = ? AND ft.value = ?]; a NULL value equals nothing. *)
Definition search_by_tag_value (name value : string) (c : Conn) : list FileRow :=
  flat_map (fun f =>
    flat_map (fun ft =>
      map (fun _ => f)
          (filter (fun t => (tag_id t =? ft_tag_id ft) && String.eqb (tag_name t) name
                            && match ft_value ft with
                               | Some x => String.eqb x value
                               | None => false
                               end)
                  (tags (working c))))
      (filter (fun ft => file_id f =? ft_file_id ft) (file_tags (working c))))
    (files (working c)).

(** *** Literal matching, for comparison with LIKE *)

(** [q in s] of Python: [q] occurs in [s] as a run of equal characters. *)
Fixpoint contains (q s : string) : bool :=
  String.prefix q s ||
  match s with
  | EmptyString => false
  | String _ s' => contains q s'
  end.

(** The same, with the letters of both sides folded as LIKE does. *)
Fixpoint prefix_nocase (q s : string) : bool :=
  match q, s with
  | EmptyString, _ => true
  | String _ _, EmptyString => false
  | String a q', String b s' => Ascii.eqb (lower a) (lower b) && prefix_nocase q' s'
  end.

Fixpoint contains_nocase (q s : string) : bool :=
  prefix_nocase q s ||
  match s with
  | EmptyString => false
  | String _ s' => contains_nocase q s'
  end.

Definition contains_null (sub : string -> string -> bool) (q : string) (x : option string) : bool :=
  match x with Some s => sub q s | None => false end.

(** A file matches [q] under the substring test [sub] when its path, its
    name, its metadata, the name of one of its tags or the value of one of
    its associations does. *)
Definition file_matches (sub : string -> string -> bool) (q : string) (db : DB) (f : FileRow) : bool :=
  sub q (file_path f) || sub q (file_name f) || sub q (file_metadata f)
  || existsb (fun ft =>
       (file_id f =? ft_file_id ft) &&
       (contains_null sub q (ft_value ft)
        || existsb (fun t => (tag_id t =? ft_tag_id ft) && sub q (tag_name t)) (tags db)))
     (file_tags db).

Definition has_wildcard (q : string) : bool :=
  Str.mem percent q || Str.mem underscore q.

End SearchEngine.

(** ** [MainWindow._get_or_create_tag] of the window *)

Module Gui.

(** [SELECT id FROM tags WHERE name=?], [fetchone()], and [create_tag] when
    there is no such row. *)
Definition _get_or_create_tag (log_accepted : bool) (name tag_type : string) (c : Conn)
  : Outcome Z * Conn :=
  match filter (fun t => String.eqb (tag_name t) name) (tags (working c)) with
  | t :: _ => (Returned (tag_id t), c)
  | [] => TagManager.create_tag log_accepted name tag_type c
  end.

End Gui.

(** ** [config.py] *)

Module Config.

(** A Python [dict] of strings, in insertion order. *)
Definition Dict := list (string * string).

(** [config[key] = value]: an existing key keeps its place. *)
Fixpoint dict_set (key value : string) (config : Dict) : Dict :=
  match config with
  | [] => [(key, value)]
  | (k, v) :: rest =>
      if String.eqb k key then (k, value) :: rest
      else (k, v) :: dict_set key value rest
  end.

(** [line.split("=", 1)] when it has two parts; [None] when the line holds
    no [=] and the split has one part. *)
Fixpoint split_once (line : string) : option (string * string) :=
  match line with
  | EmptyString => None
  | String a r =>
      if Ascii.eqb a "="%char then Some (EmptyString, r)
      else match split_once r with
           | Some (k, v) => Some (String a k, v)
           | None => None
           end
  end.

(** What [load_config] gives: the dictionary, or the [ValueError] of
    unpacking a one-part split into [key, value]. *)
Inductive Loaded :=
| Config (config : Dict)
| ValueError.

(** The body of the loop over the lines of the file. *)
Definition load_line (config : Dict) (raw : string) : Loaded :=
  let line := Str.strip raw in
  if Str.is_empty line || Str.startswith "#"%char line then Config config
  else match split_once line with
       | Some (key, value) => Config (dict_set (Str.strip key) (Str.strip value) config)
       | None => ValueError
       end.

Fixpoint load_lines (config : Dict) (lines : list string) : Loaded :=
  match lines with
  | [] => Config config
  | raw :: rest =>
      match load_line config raw with
      | Config config' => load_lines config' rest
      | ValueError => ValueError
      end
  end.

(** [load_config]; the argument is the text of [config.txt], or [None] when
    the file does not exist. *)
Definition load_config (file : option string) : Loaded :=
  match file with
  | None => Config []
  | Some text => load_lines [] (Str.file_lines text)
  end.

(** [save_config]: the text written to [config.txt]. *)
Fixpoint save_config (config : Dict) : string :=
  match config with
  | [] => EmptyString
  | (key, value) :: rest =>
      key ++ String "="%char (value ++ String Str.line_feed (save_config rest))
  end.

End Config.

(** ** Runs of the catalog *)

(** The mutating calls of the Catalog and of the Tag Store, each with what
    the environment contributes to it. *)
Inductive Op :=
| OpAddFile (path metadata : string)
| OpRemoveFile (id : Z)
| OpUpdateFilePath (log_accepted : bool) (old_path new_path : string)
| OpVerifyAllFiles (path_exists : string -> bool)
| OpCreateTag (log_accepted : bool) (name tag_type : string)
| OpDeleteTag (log_accepted : bool) (id : Z)
| OpAssignTagToFile (log_accepted : bool) (fid tid : Z) (value : option string)
| OpRemoveTagFromFile (log_accepted : bool) (fid tid : Z).

Definition run (op : Op) (c : Conn) : Conn :=
  match op with
  | OpAddFile p m => snd (FileManager.add_file p m c)
  | OpRemoveFile id => FileManager.remove_file id c
  | OpUpdateFilePath a o n => snd (FileManager.update_file_path a o n c)
  | OpVerifyAllFiles e => FileManager.verify_all_files e c
  | OpCreateTag a n t => snd (TagManager.create_tag a n t c)
  | OpDeleteTag a id => snd (TagManager.delete_tag a id c)
  | OpAssignTagToFile a f t v => snd (TagManager.assign_tag_to_file a f t v c)
  | OpRemoveTagFromFile a f t => snd (TagManager.remove_tag_from_file a f t c)
  end.

(** The states a connection goes through, starting from a new store. *)
Inductive reachable : Conn -> Prop :=
| reachable_fresh : reachable fresh
| reachable_run op c : reachable c -> reachable (run op c).

(** Keys are unique and every association has both of its parents. *)
Record consistent (db : DB) : Prop := mkConsistent {
  files_pk : NoDup (map file_id (files db));
  tags_pk : NoDup (map tag_id (tags db));
  file_tags_pk : NoDup (map (fun r => (ft_file_id r, ft_tag_id r)) (file_tags db));
  file_tags_fk_file : forall r, In r (file_tags db) -> has_file (ft_file_id r) db = true;
  file_tags_fk_tag : forall r, In r (file_tags db) -> has_tag (ft_tag_id r) db = true
}.

(** ** Vocabulary of the statements *)

(** The only place [verify_all_files] looks at for a record whose path is
    gone: the record's own directory joined with its own base name. *)
Definition candidate (p : string) : string :=
  PosixPath.join (PosixPath.dirname p) (PosixPath.basename p).

(** What verification makes of one record. *)
Definition repaired (path_exists : string -> bool) (r : FileRow) : FileRow :=
  if negb (path_exists (file_path r)) && path_exists (candidate (file_path r))
  then mkFile (file_id r) (candidate (file_path r)) (file_name r) (file_metadata r)
  else r.

(** What a move from [old_path] to [new_path] makes of one record. *)
Definition moved (old_path new_path : string) (r : FileRow) : FileRow :=
  if String.eqb (file_path r) old_path
  then mkFile (file_id r) new_path (PosixPath.basename new_path) (file_metadata r)
  else r.

(** What the loop turn for the snapshot row [(id, path)] makes of one record. *)
Definition verify_row (path_exists : string -> bool) (row : Z * string) (r : FileRow) : FileRow :=
  if (file_id r =? fst row)
     && (negb (path_exists (snd row)) && path_exists (candidate (snd row)))
  then mkFile (file_id r) (candidate (snd row)) (file_name r) (file_metadata r)
  else r.

(** The rows of [file_tags] that carry the key [(fid, tid)]. *)
Definition associations (fid tid : Z) (db : DB) : list FileTagRow :=
  filter (same_key fid tid) (file_tags db).

(** The id column of a result row [(id, name, file_path, metadata)]. *)
Definition result_id (row : Z * string * string * string) : Z :=
  fst (fst (fst row)).

(** The test [search_all] applies to one column for the query [q]. *)
Definition like_query (q s : string) : bool :=
  SearchEngine.like (SearchEngine.pattern q) s.

(** A connection between two calls: nothing is pending and the store is
    consistent. *)
Definition settled (c : Conn) : Prop :=
  consistent (working c) /\ committed c = working c.

(** A run of several calls, one after the other. *)
Definition run_all (ops : list Op) (c : Conn) : Conn :=
  fold_left (fun c0 op => run op c0) ops c.

(** The path holds two separators in a row. *)
Fixpoint double_sep (p : string) : bool :=
  match p with
  | EmptyString => false
  | String a r =>
      (Ascii.eqb a PosixPath.sep && Str.startswith PosixPath.sep r) || double_sep r
  end.

(** The text with its ASCII upper-case letters turned to lower case. *)
Fixpoint fold_case (s : string) : string :=
  match s with
  | EmptyString => EmptyString
  | String a r => String (SearchEngine.lower a) (fold_case r)
  end.

(** The text holds no line terminator. *)
Definition one_line (s : string) : Prop :=
  Str.mem Str.line_feed s = false /\ Str.mem Str.carriage_return s = false.

(** Keys and values that [save_config] writes in a form [load_config]
    reads back: one line, no white space at either end, and for a key no
    [=] and no leading [#]. *)
Definition storable_key (k : string) : Prop :=
  Str.strip k = k /\ one_line k
  /\ Str.mem "="%char k = false /\ Str.startswith "#"%char k = false.

Definition storable_value (v : string) : Prop :=
  Str.strip v = v /\ one_line v.

(** Literal containment as LIKE can see it: in the text up to its first
    NUL, with the letters as they are or with ASCII letters folded. *)
Definition literal_match (q s : string) : bool :=
  SearchEngine.contains q (Str.c_string s).

Definition literal_match_nocase (q s : string) : bool :=
  SearchEngine.contains_nocase q (Str.c_string s).

(** The path with every run of separators written as one separator, as
    path resolution reads it. *)
Fixpoint collapse (p : string) : string :=
  match p with
  | EmptyString => EmptyString
  | String a r =>
      if Ascii.eqb a PosixPath.sep && Str.startswith PosixPath.sep r
      then collapse r
      else String a (collapse r)
  end.

(** [os.path.exists] on a disk that holds exactly the listed entries. *)
Definition on_disk (disk : list string) (p : string) : bool :=
  existsb (String.eqb (collapse p)) (map collapse disk).

(** [config.get(key)] *)
Definition dict_get (key : string) (config : Config.Dict) : option string :=
  option_map snd (find (fun e => String.eqb (fst e) key) config).

(** The entry a line of the configuration file sets, if it sets one. *)
Definition setting (raw : string) : list (string * string) :=
  match Config.load_line [] raw with
  | Config.Config d => d
  | Config.ValueError => []
  end.

(** The value the last entry for [key] carries. *)
Fixpoint last_value (key : string) (entries : list (string * string)) : option string :=
  match entries with
  | [] => None
  | (k, v) :: rest =>
      match last_value key rest with
      | Some x => Some x
      | None => if String.eqb k key then Some v else None
      end
  end.

(** The keys of [keys] that are not in [seen], each at its first place. *)
Fixpoint first_keys (seen keys : list string) : list string :=
  match keys with
  | [] => []
  | k :: rest =>
      if existsb (String.eqb k) seen then first_keys seen rest
      else k :: first_keys (seen ++ [k])%list rest
  end.

(** * Properties *)

(** ** Strings and paths *)

Lemma take_drop (n : nat) (s : string) : Str.take n s ++ Str.drop n s = s.
Proof.
  revert s; induction n as [|n IH]; intros [|a r]; simpl; try reflexivity.
  now rewrite IH.
Qed.

Lemma rfind_from_absent (c : ascii) (p : string) :
  Str.mem c p = false -> forall i last, Str.rfind_from c p i last = last.
Proof.
  induction p as [|a r IH]; simpl; intros H i last; [reflexivity|].
  apply orb_false_elim in H as [Ha Hr].
  rewrite Ha. now apply IH.
Qed.

Lemma rfind_from_present (c : ascii) (p : string) :
  Str.mem c p = true ->
  forall i last, exists k : nat,
    Str.rfind_from c p i last = i + Z.of_nat k
    /\ Str.mem c (Str.drop (S k) p) = false
    /\ Str.endswith c (Str.take (S k) p) = true.
Proof.
  induction p as [|a r IH]; simpl; intros H i last; [discriminate|].
  destruct (Str.mem c r) eqn:Hr.
  - destruct (IH eq_refl (i + 1) (if Ascii.eqb a c then i else last)) as (k & Hk & Hd & He).
    exists (S k). split; [rewrite Hk; lia|]. split; [exact Hd|].
    simpl in He |- *. destruct r as [|b r']; [discriminate|exact He].
  - rewrite orb_false_r in H. rewrite H.
    exists O. rewrite rfind_from_absent by exact Hr.
    split; [simpl; lia|]. split; [destruct r; exact Hr|].
    simpl. destruct r; first [exact H | reflexivity].
Qed.

(** The base name is the part of the path after its last separator: it is a
    suffix of the path, holds no separator, and what precedes it is empty or
    ends with a separator. *)
Lemma basename_final_segment (p : string) :
  exists pre,
    p = pre ++ PosixPath.basename p
    /\ Str.mem PosixPath.sep (PosixPath.basename p) = false
    /\ (pre = "" \/ Str.endswith PosixPath.sep pre = true).
Proof.
  unfold PosixPath.basename, Str.rfind.
  destruct (Str.mem PosixPath.sep p) eqn:Hm.
  - destruct (rfind_from_present _ _ Hm 0 (-1)) as (k & Hk & Hd & He).
    rewrite Hk. replace (Z.to_nat (0 + Z.of_nat k + 1)) with (S k) by lia.
    exists (Str.take (S k) p). split; [symmetry; apply take_drop|]. split; [exact Hd|].
    right; exact He.
  - rewrite rfind_from_absent by exact Hm. simpl.
    exists "". split; [reflexivity|]. split; [destruct p; exact Hm|]. now left.
Qed.

(** ** Row identifiers *)

Lemma next_rowid_above (seq : Z) (ids : list Z) (x : Z) :
  In x ids -> x < next_rowid seq ids.
Proof.
  unfold next_rowid. induction ids as [|y ids IH]; simpl; [tauto|].
  intros [->|H]; [lia|]. specialize (IH H). lia.
Qed.

Lemma filter_none {A} (f : A -> bool) (l : list A) :
  (forall x, In x l -> f x = false) -> filter f l = [].
Proof.
  induction l as [|a l IH]; simpl; intros H; [reflexivity|].
  rewrite (H a) by now left. apply IH. intros x Hx. apply H. now right.
Qed.

Lemma filter_negb_same {A} (f : A -> bool) (l : list A) :
  filter f (filter (fun x => negb (f x)) l) = [].
Proof.
  apply filter_none. intros x Hx. apply filter_In in Hx as [_ Hx].
  now destruct (f x).
Qed.

Lemma flat_map_nil {A B} (f : A -> list B) (l : list A) :
  (forall x, In x l -> f x = []) -> flat_map f l = [].
Proof.
  induction l as [|a l IH]; simpl; intros H; [reflexivity|].
  rewrite (H a) by now left. apply IH. intros x Hx. apply H. now right.
Qed.

(** ** The Catalog *)

Lemma log_action_files (a : bool) (action : string) (c : Conn) :
  files (working (snd (FileManager.log_action a action c))) = files (working c)
  /\ files (committed (snd (FileManager.log_action a action c)))
     = files (if a then working c else committed c).
Proof. destruct a; simpl; auto. Qed.

(** C1: for every path and metadata string, [add_file] followed by
    [get_file] on the returned id yields the record [(id, name, file_path,
    metadata)] whose path and metadata are the inputs and whose name is the
    base name of the path, that is its final segment: the suffix after the
    last separator. *)
Theorem add_file_then_get_file (path metadata : string) (c : Conn) :
  FileManager.get_file (fst (FileManager.add_file path metadata c))
                       (snd (FileManager.add_file path metadata c))
  = Some (fst (FileManager.add_file path metadata c),
          PosixPath.basename path, path, metadata)
  /\ exists pre,
       path = pre ++ PosixPath.basename path
       /\ Str.mem PosixPath.sep (PosixPath.basename path) = false
       /\ (pre = "" \/ Str.endswith PosixPath.sep pre = true).
Proof.
  split; [|apply basename_final_segment].
  unfold FileManager.add_file, FileManager.get_file; simpl.
  rewrite filter_app; simpl. rewrite Z.eqb_refl.
  rewrite filter_none; [reflexivity|].
  intros r Hr. apply Z.eqb_neq.
  pose proof (next_rowid_above (files_seq (working c)) _ _
                (in_map file_id _ _ Hr)). lia.
Qed.

(** C2: for every file id, after [remove_file] the record is not found and
    no tag is reported for the id, whatever associations the store held for
    it before. *)
Theorem remove_file_then_absent (id : Z) (c : Conn) :
  FileManager.get_file id (FileManager.remove_file id c) = None
  /\ TagManager.get_tags_for_file id (FileManager.remove_file id c) = [].
Proof.
  unfold FileManager.get_file, TagManager.get_tags_for_file, FileManager.remove_file; simpl.
  split.
  - now rewrite (filter_negb_same (fun r => file_id r =? id)).
  - apply flat_map_nil. intros t _.
    rewrite filter_none; [reflexivity|].
    intros ft Hft. apply filter_In in Hft as [_ Hft].
    apply negb_true_iff in Hft. rewrite Hft. apply andb_false_r.
Qed.

(** C7: [update_file_path] rewrites the path to the new path and the name
    to the base name of the new path, which is the final segment of the new
    path (the suffix after its last separator), in every record whose path
    equals the old path, however many there are, and leaves every other
    record as it was; the rewrite is committed whether or not the log row
    is accepted. *)
Theorem update_file_path_moves (log_accepted : bool) (old_path new_path : string) (c : Conn) :
  let c' := snd (FileManager.update_file_path log_accepted old_path new_path c) in
  files (working c') = map (moved old_path new_path) (files (working c))
  /\ files (committed c') = map (moved old_path new_path) (files (working c))
  /\ (forall r, In r (files (working c)) -> file_path r = old_path ->
        In (mkFile (file_id r) new_path (PosixPath.basename new_path) (file_metadata r))
           (files (working c')))
  /\ (forall r, In r (files (working c)) -> file_path r <> old_path ->
        In r (files (working c')))
  /\ (forall r', In r' (files (working c')) ->
        In r' (files (working c)) /\ file_path r' <> old_path
        \/ exists r, In r (files (working c)) /\ file_path r = old_path
                     /\ file_id r' = file_id r
                     /\ file_path r' = new_path
                     /\ file_metadata r' = file_metadata r
                     /\ exists pre,
                          new_path = pre ++ file_name r'
                          /\ Str.mem PosixPath.sep (file_name r') = false
                          /\ (pre = "" \/ Str.endswith PosixPath.sep pre = true))
  /\ exists pre,
       new_path = pre ++ PosixPath.basename new_path
       /\ Str.mem PosixPath.sep (PosixPath.basename new_path) = false
       /\ (pre = "" \/ Str.endswith PosixPath.sep pre = true).
Proof.
  intros c'.
  assert (Hw : files (working c') = map (moved old_path new_path) (files (working c))).
  { subst c'. unfold FileManager.update_file_path. rewrite (proj1 (log_action_files _ _ _)).
    reflexivity. }
  split; [exact Hw|]. split.
  { subst c'. unfold FileManager.update_file_path. rewrite (proj2 (log_action_files _ _ _)).
    destruct log_accepted; reflexivity. }
  split; [|split; [|split; [|apply basename_final_segment]]].
  - intros r Hr Hp. rewrite Hw.
    apply in_map_iff. exists r. split; [|exact Hr].
    unfold moved. apply String.eqb_eq in Hp. now rewrite Hp.
  - intros r Hr Hp. rewrite Hw.
    apply in_map_iff. exists r. split; [|exact Hr].
    unfold moved. apply String.eqb_neq in Hp. now rewrite Hp.
  - intros r' Hr'. rewrite Hw in Hr'. apply in_map_iff in Hr' as (r & <- & Hr).
    unfold moved. destruct (String.eqb (file_path r) old_path) eqn:E.
    + right. exists r. apply String.eqb_eq in E.
      repeat (split; [first [exact Hr | exact E | reflexivity]|]).
      apply basename_final_segment.
    + left. apply String.eqb_neq in E. now split.
Qed.

(** ** The Tag Store *)

Lemma associations_after_replace (fid tid : Z) (v : option string) (l : list FileTagRow) :
  filter (same_key fid tid)
         (filter (fun r => negb (same_key fid tid r)) l ++ [mkFileTag fid tid v])
  = [mkFileTag fid tid v].
Proof.
  rewrite filter_app, (filter_negb_same (same_key fid tid)). simpl.
  unfold same_key; simpl. now rewrite !Z.eqb_refl.
Qed.

Lemma assign_accepted (fid tid : Z) (v : option string) (c : Conn) :
  has_file fid (working c) = true ->
  has_tag tid (working c) = true ->
  let r := TagManager.assign_tag_to_file true fid tid v c in
  fst r = Returned tt
  /\ associations fid tid (working (snd r)) = [mkFileTag fid tid v]
  /\ committed (snd r) = working (snd r)
  /\ files (working (snd r)) = files (working c)
  /\ tags (working (snd r)) = tags (working c).
Proof.
  intros Hf Ht. unfold TagManager.assign_tag_to_file, with_conn, replace_file_tag.
  rewrite Hf, Ht. simpl. unfold associations; simpl.
  rewrite associations_after_replace. auto.
Qed.

Lemma assign_refused (log_accepted : bool) (fid tid : Z) (v : option string) (c : Conn) :
  has_file fid (working c) = false \/ has_tag tid (working c) = false ->
  TagManager.assign_tag_to_file log_accepted fid tid v c
  = (Raised IntegrityError, rollback c).
Proof.
  intros H. unfold TagManager.assign_tag_to_file, with_conn, replace_file_tag.
  replace (has_file fid (working c) && has_tag tid (working c)) with false; [reflexivity|].
  destruct H as [-> | ->]; [reflexivity|now rewrite andb_false_r].
Qed.

Lemma rollback_settled (c : Conn) : committed c = working c -> rollback c = c.
Proof. destruct c as [a b]. simpl. now intros ->. Qed.

(** C3, as amended.  When the file and the tag exist, assigning the tag to
    the file with [v1] and then with [v2] succeeds both times and leaves
    exactly one association row for the pair, carrying [v2].  When the file
    or the tag does not exist, whichever of the two is missing, each call
    raises the foreign-key error and rolls back: with nothing pending before
    the calls, both raise and the store is after them what it was before,
    so no association row is written. *)
Theorem assign_twice_keeps_latest (fid tid : Z) (v1 v2 : option string) (c : Conn) :
  let r1 := TagManager.assign_tag_to_file true fid tid v1 c in
  let r2 := TagManager.assign_tag_to_file true fid tid v2 (snd r1) in
  (has_file fid (working c) = true ->
   has_tag tid (working c) = true ->
   fst r1 = Returned tt
   /\ fst r2 = Returned tt
   /\ associations fid tid (working (snd r2)) = [mkFileTag fid tid v2]
   /\ associations fid tid (committed (snd r2)) = [mkFileTag fid tid v2])
  /\ (has_file fid (working c) = false \/ has_tag tid (working c) = false ->
      (forall log_accepted v,
          TagManager.assign_tag_to_file log_accepted fid tid v c
          = (Raised IntegrityError, rollback c))
      /\ (committed c = working c ->
          fst r1 = Raised IntegrityError
          /\ fst r2 = Raised IntegrityError
          /\ snd r1 = c
          /\ snd r2 = c)).
Proof.
  intros r1 r2. split.
  - intros Hf Ht.
    destruct (assign_accepted fid tid v1 c Hf Ht) as (H1 & _ & _ & Hfs & Hts).
    fold r1 in H1, Hfs, Hts.
    assert (Hf' : has_file fid (working (snd r1)) = true)
      by (unfold has_file; now rewrite Hfs).
    assert (Ht' : has_tag tid (working (snd r1)) = true)
      by (unfold has_tag; now rewrite Hts).
    destruct (assign_accepted fid tid v2 (snd r1) Hf' Ht') as (H2 & Ha & Hc & _).
    fold r2 in H2, Ha, Hc.
    repeat split; auto. now rewrite Hc.
  - intros Hmiss. split.
    + intros la v. now apply assign_refused.
    + intros Hs.
      assert (E1 : r1 = (Raised IntegrityError, c)).
      { subst r1. rewrite assign_refused by exact Hmiss. now rewrite rollback_settled. }
      assert (E2 : r2 = (Raised IntegrityError, c)).
      { subst r2. rewrite E1. simpl.
        rewrite assign_refused by exact Hmiss. now rewrite rollback_settled. }
      rewrite E1, E2. simpl. auto.
Qed.

(** The statement of C3 at a store with one file and one tag. *)
Lemma assign_twice_keeps_latest_witness :
  let c := snd (TagManager.create_tag true "file_type" "string"
                  (snd (FileManager.add_file "/a/report.pdf" "" fresh))) in
  let r1 := TagManager.assign_tag_to_file true 1 1 (Some "pdf") c in
  let r2 := TagManager.assign_tag_to_file true 1 1 (Some "pdf document") (snd r1) in
  (fst r1 = Returned tt
   /\ fst r2 = Returned tt
   /\ associations 1 1 (working (snd r2)) = [mkFileTag 1 1 (Some "pdf document")]
   /\ associations 1 1 (committed (snd r2)) = [mkFileTag 1 1 (Some "pdf document")])
  /\ (let r3 := TagManager.assign_tag_to_file true 1 5 (Some "pdf") c in
      let r4 := TagManager.assign_tag_to_file true 1 5 (Some "pdf document") (snd r3) in
      fst r3 = Raised IntegrityError
      /\ fst r4 = Raised IntegrityError
      /\ snd r3 = c
      /\ snd r4 = c).
Proof.
  intros c. split.
  - exact (proj1 (assign_twice_keeps_latest 1 1 (Some "pdf") (Some "pdf document") c)
             eq_refl eq_refl).
  - exact (proj2 (proj2 (assign_twice_keeps_latest 1 5 (Some "pdf") (Some "pdf document") c)
                    (or_intror eq_refl)) eq_refl).
Defined.

(** C3, as stated, fails for ids that name no file: both calls raise the
    foreign-key error and no association row is left. *)
Lemma assign_twice_missing_file :
  let r1 := TagManager.assign_tag_to_file true 7 1 (Some "a") fresh in
  let r2 := TagManager.assign_tag_to_file true 7 1 (Some "b") (snd r1) in
  fst r1 = Raised IntegrityError
  /\ fst r2 = Raised IntegrityError
  /\ associations 7 1 (working (snd r2)) = []
  /\ ~ (exists row, associations 7 1 (working (snd r2)) = [row]).
Proof.
  repeat split. intros [row H]. discriminate H.
Qed.

(** ** Verification of the recorded paths *)

Lemma set_files_same (db : DB) : set_files (files db) db = db.
Proof. now destruct db. Qed.

Lemma verify_one_working (e : string -> bool) (c : Conn) (row : Z * string) :
  working (FileManager.verify_one e c row)
  = set_files (map (verify_row e row) (files (working c))) (working c).
Proof.
  destruct row as [id path]. unfold FileManager.verify_one, verify_row, candidate; simpl.
  destruct (e path); simpl.
  - rewrite (map_ext _ (fun r => r)), map_id, set_files_same; [reflexivity|].
    intros r. now rewrite andb_false_r.
  - destruct (e (PosixPath.join (PosixPath.dirname path) (PosixPath.basename path))); simpl.
    + unfold update_path_where_id. f_equal. apply map_ext. intros r.
      now rewrite andb_true_r.
    + rewrite (map_ext _ (fun r => r)), map_id, set_files_same; [reflexivity|].
      intros r. now rewrite andb_false_r.
Qed.

Lemma verify_one_settled (e : string -> bool) (c : Conn) (row : Z * string) :
  committed c = working c ->
  committed (FileManager.verify_one e c row) = working (FileManager.verify_one e c row).
Proof.
  destruct row as [id path]. unfold FileManager.verify_one.
  destruct (e path); simpl; [auto|].
  destruct (e _); simpl; auto.
Qed.

Lemma verify_fold_working (e : string -> bool) (rows : list (Z * string)) (c : Conn) :
  working (fold_left (FileManager.verify_one e) rows c)
  = set_files
      (map (fun r => fold_left (fun r0 row => verify_row e row r0) rows r) (files (working c)))
      (working c).
Proof.
  revert c; induction rows as [|row rows IH]; intros c; simpl.
  - now rewrite map_id, set_files_same.
  - rewrite IH, verify_one_working. unfold set_files; simpl. f_equal.
    now rewrite map_map.
Qed.

Lemma verify_fold_settled (e : string -> bool) (rows : list (Z * string)) (c : Conn) :
  committed c = working c ->
  committed (fold_left (FileManager.verify_one e) rows c)
  = working (fold_left (FileManager.verify_one e) rows c).
Proof.
  revert c; induction rows as [|row rows IH]; intros c H; simpl; [exact H|].
  apply IH. now apply verify_one_settled.
Qed.

Lemma verify_row_id (e : string -> bool) (row : Z * string) (r : FileRow) :
  file_id (verify_row e row r) = file_id r.
Proof. unfold verify_row. now destruct (_ && _). Qed.

Lemma verify_rows_other (e : string -> bool) (rows : list (Z * string)) (r : FileRow) :
  ~ In (file_id r) (map fst rows) ->
  fold_left (fun r0 row => verify_row e row r0) rows r = r.
Proof.
  revert r; induction rows as [|row rows IH]; intros r H; simpl; [reflexivity|].
  simpl in H.
  assert (Hrow : verify_row e row r = r).
  { unfold verify_row. destruct (file_id r =? fst row) eqn:E; [|reflexivity].
    apply Z.eqb_eq in E. exfalso. apply H. now left. }
  rewrite Hrow. apply IH. tauto.
Qed.

Lemma verify_rows_own (e : string -> bool) (fs : list FileRow) (r : FileRow) :
  NoDup (map file_id fs) -> In r fs ->
  fold_left (fun r0 row => verify_row e row r0)
            (map (fun x => (file_id x, file_path x)) fs) r
  = repaired e r.
Proof.
  intros Hnd Hin. apply in_split in Hin as (l1 & l2 & ->).
  rewrite map_app in Hnd. simpl in Hnd. apply NoDup_remove_2 in Hnd.
  rewrite map_app, fold_left_app. cbn [map fold_left].
  rewrite (verify_rows_other e (map _ l1) r).
  - assert (Hown : verify_row e (file_id r, file_path r) r = repaired e r).
    { unfold verify_row, repaired; simpl. now rewrite Z.eqb_refl. }
    rewrite Hown. apply verify_rows_other.
    rewrite map_map; simpl.
    replace (file_id (repaired e r)) with (file_id r)
      by (unfold repaired; now destruct (_ && _)).
    intros H. apply Hnd. apply in_or_app. now right.
  - rewrite map_map; simpl. intros H. apply Hnd. apply in_or_app. now left.
Qed.

(** *** What the candidate path is on a file system *)

Lemma rstrip_all_char (ch : ascii) (s : string) :
  Str.all_char ch s = true -> Str.rstrip ch s = "".
Proof.
  induction s as [|a r IH]; [reflexivity|].
  cbn [Str.all_char Str.rstrip]. intros H. apply andb_true_iff in H as [Ha Hr].
  now rewrite (IH Hr), Ha.
Qed.

Lemma rstrip_first (ch x : ascii) (s y : string) :
  Str.rstrip ch s = String x y -> exists r, s = String x r.
Proof.
  destruct s as [|a r]; [discriminate|].
  cbn [Str.rstrip]. destruct (Str.rstrip ch r).
  - destruct (Ascii.eqb a ch); [discriminate|]. intros H. injection H as <- _. now exists r.
  - intros H. injection H as <- _. now exists r.
Qed.

Lemma rstrip_no_end (ch : ascii) (s : string) :
  Str.endswith ch (Str.rstrip ch s) = false.
Proof.
  induction s as [|a r IH]; [reflexivity|].
  cbn [Str.rstrip]. destruct (Str.rstrip ch r) as [|x y] eqn:E.
  - destruct (Ascii.eqb a ch) eqn:Ea; [reflexivity|exact Ea].
  - exact IH.
Qed.

Lemma collapse_cons (a : ascii) (r : string) :
  collapse (String a r)
  = if Ascii.eqb a PosixPath.sep && Str.startswith PosixPath.sep r
    then collapse r else String a (collapse r).
Proof. reflexivity. Qed.

Lemma startswith_app (ch : ascii) (s t : string) :
  Str.is_empty s = false -> Str.startswith ch (s ++ t) = Str.startswith ch s.
Proof. destruct s; [discriminate|reflexivity]. Qed.

(** A run of separators reads as one separator. *)
Lemma collapse_run (s t : string) :
  Str.all_char PosixPath.sep s = true -> Str.is_empty s = false ->
  collapse (s ++ t) = collapse (String PosixPath.sep t).
Proof.
  induction s as [|a r IH]; [discriminate|].
  intros Hall _. cbn [Str.all_char] in Hall. apply andb_true_iff in Hall as [Ha Hr].
  apply Ascii.eqb_eq in Ha. subst a.
  destruct r as [|b r']; [reflexivity|].
  change (String PosixPath.sep (String b r') ++ t)
    with (String PosixPath.sep (String b r' ++ t)).
  rewrite collapse_cons, startswith_app by reflexivity.
  cbn [Str.all_char] in Hr. apply andb_true_iff in Hr as [Hb Hr].
  cbn [Str.startswith]. rewrite Hb, Ascii.eqb_refl. cbn [andb].
  apply IH; [|reflexivity]. cbn [Str.all_char]. now rewrite Hb, Hr.
Qed.

(** Stripping the separators at the end of a head and writing one separator
    in their place gives a path that reads the same. *)
Lemma collapse_rstrip (head t : string) :
  Str.endswith PosixPath.sep head = true ->
  Str.all_char PosixPath.sep head = false ->
  Str.is_empty (Str.rstrip PosixPath.sep head) = false
  /\ collapse (head ++ t) = collapse (Str.rstrip PosixPath.sep head ++ String PosixPath.sep t).
Proof.
  induction head as [|a r IH]; [discriminate|].
  destruct r as [|b r'].
  - cbn [Str.endswith Str.all_char]. intros -> H. discriminate.
  - intros He Ha.
    change (Str.endswith PosixPath.sep (String b r') = true) in He.
    change (Ascii.eqb a PosixPath.sep && Str.all_char PosixPath.sep (String b r') = false)
      in Ha.
    change (Str.rstrip PosixPath.sep (String a (String b r')))
      with (match Str.rstrip PosixPath.sep (String b r') with
            | EmptyString =>
                if Ascii.eqb a PosixPath.sep then EmptyString else String a EmptyString
            | String x y => String a (String x y)
            end).
    change (String a (String b r') ++ t) with (String a (String b r' ++ t)).
    destruct (Str.all_char PosixPath.sep (String b r')) eqn:Hall.
    + rewrite andb_true_r in Ha.
      rewrite (rstrip_all_char _ _ Hall), Ha. split; [reflexivity|].
      change (String a "" ++ String PosixPath.sep t) with (String a (String PosixPath.sep t)).
      rewrite !(collapse_cons a), Ha. cbn [andb]. f_equal.
      now apply collapse_run.
    + destruct (IH He eq_refl) as [Hn Hc].
      destruct (Str.rstrip PosixPath.sep (String b r')) as [|x y] eqn:Er; [discriminate|].
      split; [reflexivity|].
      destruct (rstrip_first _ _ _ _ Er) as (r0 & Er0).
      change (String a (String x y) ++ String PosixPath.sep t)
        with (String a (String x y ++ String PosixPath.sep t)).
      rewrite !(collapse_cons a), Hc, Er0.
      rewrite !startswith_app by reflexivity. reflexivity.
Qed.

(** The candidate reads as the recorded path does: it is the recorded path
    with the separators before the base name written as one. *)
Lemma collapse_candidate (p : string) : collapse (candidate p) = collapse p.
Proof.
  unfold candidate, PosixPath.dirname, PosixPath.basename, Str.rfind.
  destruct (Str.mem PosixPath.sep p) eqn:Hm.
  - destruct (rfind_from_present _ _ Hm 0 (-1)) as (k & Hk & Htail & Hend).
    rewrite Hk. replace (Z.to_nat (0 + Z.of_nat k + 1)) with (S k) by lia.
    pose proof (take_drop (S k) p) as Hp.
    set (head := Str.take (S k) p) in *. set (tail := Str.drop (S k) p) in *.
    assert (Hne : Str.is_empty head = false) by (destruct head; [discriminate|reflexivity]).
    assert (Hst : Str.startswith PosixPath.sep tail = false).
    { destruct tail as [|x y]; [reflexivity|]. simpl in Htail |- *.
      now apply orb_false_elim in Htail as [H _]. }
    rewrite Hne. cbn [negb andb].
    unfold PosixPath.join. rewrite Hst.
    destruct (Str.all_char PosixPath.sep head) eqn:Hall; cbn [negb].
    + rewrite Hend, orb_true_r. now rewrite Hp.
    + destruct (collapse_rstrip head tail Hend Hall) as [Hn Hc].
      rewrite Hn, rstrip_no_end. cbn [orb]. rewrite <- Hc. now rewrite Hp.
  - rewrite rfind_from_absent by exact Hm. simpl.
    unfold PosixPath.join.
    assert (Hst : Str.startswith PosixPath.sep p = false).
    { destruct p as [|x y]; [reflexivity|]. simpl in Hm |- *.
      now apply orb_false_elim in Hm as [H _]. }
    rewrite Hst. simpl. now destruct p.
Qed.

Lemma on_disk_collapse (disk : list string) (p q : string) :
  collapse p = collapse q -> on_disk disk p = on_disk disk q.
Proof. unfold on_disk. now intros ->. Qed.

Lemma fold_left_fixed {A B} (f : A -> B -> A) (l : list B) (a : A) :
  (forall b, f a b = a) -> fold_left f l a = a.
Proof.
  intros H. induction l as [|b l IH]; simpl; [reflexivity|]. now rewrite H.
Qed.

(** C4: the repair never takes place.  The candidate that
    [verify_all_files] tries for a record is the record's own directory
    joined with its own base name, and that is the recorded path again, with
    the separators before the base name written as one.  On a file system
    that resolves a path as it resolves the path with each run of
    separators written as one, the candidate exists exactly when the
    recorded path does, so for a record whose path is missing the candidate
    is missing too: [verify_all_files] leaves the store as it was, whatever
    other files the directory holds, a file of the same name in another
    letter case included.  The record is neither deleted nor marked. *)
Theorem verify_all_files_repairs_nothing (path_exists : string -> bool) (c : Conn) :
  (forall p q, collapse p = collapse q -> path_exists p = path_exists q) ->
  (forall p, collapse (candidate p) = collapse p
             /\ path_exists (candidate p) = path_exists p)
  /\ FileManager.verify_all_files path_exists c = c.
Proof.
  intros Hfs.
  assert (Hc : forall p, path_exists (candidate p) = path_exists p).
  { intros p. apply Hfs, collapse_candidate. }
  split; [intros p; split; [apply collapse_candidate|apply Hc]|].
  unfold FileManager.verify_all_files. apply fold_left_fixed.
  intros [id path]. unfold FileManager.verify_one.
  destruct (path_exists path) eqn:E; [reflexivity|]. cbn [negb].
  pose proof (Hc path) as H. unfold candidate in H. now rewrite H, E.
Qed.

(** The statement of C4 where the recorded file has been renamed to another
    letter case in its directory. *)
Lemma verify_all_files_repairs_nothing_witness :
  let disk := ["/a/Report.pdf"; "/a/notes.txt"] in
  let c := snd (FileManager.add_file "/a/report.pdf" "q3" fresh) in
  (forall p q, collapse p = collapse q -> on_disk disk p = on_disk disk q)
  /\ on_disk disk "/a/report.pdf" = false
  /\ on_disk disk "/a/Report.pdf" = true
  /\ PosixPath.dirname "/a/Report.pdf" = PosixPath.dirname "/a/report.pdf"
  /\ candidate "/a/report.pdf" = "/a/report.pdf"
  /\ FileManager.verify_all_files (on_disk disk) c = c
  /\ files (working (FileManager.verify_all_files (on_disk disk) c))
     = [mkFile 1 "/a/report.pdf" "report.pdf" "q3"].
Proof.
  intros disk c.
  pose proof (proj2 (verify_all_files_repairs_nothing (on_disk disk) c
                       (on_disk_collapse disk))) as H.
  split; [exact (on_disk_collapse disk)|].
  split; [reflexivity|]. split; [reflexivity|]. split; [reflexivity|].
  split; [reflexivity|]. split; [exact H|].
  rewrite H. reflexivity.
Defined.

(** ** The action log *)

Lemma verify_all_files_logs (e : string -> bool) (c : Conn) :
  logs (working (FileManager.verify_all_files e c)) = logs (working c).
Proof.
  unfold FileManager.verify_all_files. now rewrite verify_fold_working.
Qed.

(** Which calls of the Catalog reach the log: [update_file_path] appends its
    row when the store accepts it; [add_file], [remove_file] and
    [verify_all_files] never append one. *)
Lemma catalog_log_rows (c : Conn) :
  (forall path metadata,
      logs (working (snd (FileManager.add_file path metadata c))) = logs (working c))
  /\ (forall id, logs (working (FileManager.remove_file id c)) = logs (working c))
  /\ (forall e, logs (working (FileManager.verify_all_files e c)) = logs (working c))
  /\ (forall old_path new_path,
        map log_action
            (logs (working (snd (FileManager.update_file_path true old_path new_path c))))
        = app (map log_action (logs (working c)))
              ["Updated file path from " ++ old_path ++ " to " ++ new_path]).
Proof.
  repeat split; intros; try reflexivity.
  - apply verify_all_files_logs.
  - simpl. now rewrite map_app.
Qed.

(** C5 at a new store: [add_file] commits a file record and [remove_file]
    commits its removal, and the log is empty after each of them, while the
    move of the same record through [update_file_path] and the creation of
    a tag each leave their log row. *)
Theorem catalog_writes_leave_no_log :
  let c1 := snd (FileManager.add_file "/a/report.pdf" "" fresh) in
  let c2 := FileManager.remove_file 1 c1 in
  files (committed c1) = [mkFile 1 "/a/report.pdf" "report.pdf" ""]
  /\ logs (committed c1) = []
  /\ files (committed c2) = []
  /\ logs (committed c2) = []
  /\ logs (committed (snd (FileManager.update_file_path true "/a/report.pdf" "/b/r.pdf" c1)))
     = [mkLog 1 "Updated file path from /a/report.pdf to /b/r.pdf"]
  /\ logs (committed (snd (TagManager.create_tag true "auto" "string" c1)))
     = [mkLog 1 "Created tag: auto (ID=1, type=string)"].
Proof. repeat split. Qed.

(** The writes of the Tag Store that sit in a [with] block stand or fall
    with their log row: when the log row is refused the call raises and the
    store is as it was before the call. *)
Lemma tag_writes_atomic (c : Conn) :
  committed c = working c ->
  (forall id, snd (TagManager.delete_tag false id c) = c)
  /\ (forall fid tid v, snd (TagManager.assign_tag_to_file false fid tid v c) = c)
  /\ (forall fid tid, snd (TagManager.remove_tag_from_file false fid tid c) = c).
Proof.
  intros H. destruct c as [cm wk]; simpl in H; subst wk.
  repeat split; intros; unfold TagManager.delete_tag, TagManager.assign_tag_to_file,
    TagManager.remove_tag_from_file, with_conn; simpl; try reflexivity.
  destruct (replace_file_tag fid tid v cm); reflexivity.
Qed.

(** [update_file_path] and [create_tag] commit their write before they log:
    when the log row is refused the call raises, the write stays committed
    and the log has no row for it. *)
Lemma write_committed_before_log (c : Conn) :
  (forall old_path new_path,
      let r := FileManager.update_file_path false old_path new_path c in
      fst r = Raised OperationalError
      /\ committed (snd r)
         = update_path_name_where_path new_path (PosixPath.basename new_path) old_path
             (working c))
  /\ (forall name tag_type,
        type_ok tag_type = true ->
        let r := TagManager.create_tag false name tag_type c in
        fst r = Raised OperationalError
        /\ Some (committed (snd r)) = option_map fst (insert_tag name tag_type (working c))).
Proof.
  split; intros.
  - split; reflexivity.
  - subst r. unfold TagManager.create_tag, insert_tag. rewrite H. simpl. split; reflexivity.
Qed.

(** C8 at a store with one record: a move whose log row is refused raises,
    yet the new path and name are committed and the log is empty; the same
    happens to a tag created while the log row is refused.  An assignment
    in the same situation leaves the store untouched. *)
Theorem move_committed_without_log :
  let c := snd (FileManager.add_file "/a/old.txt" "" fresh) in
  let r := FileManager.update_file_path false "/a/old.txt" "/b/new.txt" c in
  let t := TagManager.create_tag false "auto" "string" c in
  let a := TagManager.assign_tag_to_file false 1 1 (Some "cat")
             (snd (TagManager.create_tag true "auto" "string" c)) in
  fst r = Raised OperationalError
  /\ files (committed (snd r)) = [mkFile 1 "/b/new.txt" "new.txt" ""]
  /\ logs (committed (snd r)) = []
  /\ fst t = Raised OperationalError
  /\ tags (committed (snd t)) = [mkTag 1 "auto" "string"]
  /\ logs (committed (snd t)) = []
  /\ fst a = Raised OperationalError
  /\ file_tags (committed (snd a)) = [].
Proof. repeat split. Qed.

(** ** Searching *)

Lemma mem_app (ch : ascii) (a b : string) :
  Str.mem ch (a ++ b) = Str.mem ch a || Str.mem ch b.
Proof.
  induction a as [|x a IH]; simpl; [reflexivity|]. now rewrite IH, orb_assoc.
Qed.

Lemma c_string_fixed (s : string) : Str.mem Str.nul s = false -> Str.c_string s = s.
Proof.
  induction s as [|a r IH]; simpl; intros H; [reflexivity|].
  apply orb_false_elim in H as [Ha H]. now rewrite Ha, (IH H).
Qed.





Lemma pattern_percent_any (s : string) : SearchEngine.pattern_compare "%" s = true.
Proof.
  induction s as [|a s IH]; [reflexivity|].
  simpl in IH |- *. exact IH.
Qed.

Lemma pattern_percent_unfold (pat s : string) :
  SearchEngine.pattern_compare (String SearchEngine.percent pat) s
  = SearchEngine.pattern_compare pat s
    || match s with
       | EmptyString => false
       | String _ s' => SearchEngine.pattern_compare (String SearchEngine.percent pat) s'
       end.
Proof. destruct s; reflexivity. Qed.


Lemma pattern_literal_unfold (p : ascii) (pat s : string) :
  Ascii.eqb p SearchEngine.percent = false ->
  SearchEngine.pattern_compare (String p pat) s
  = match s with
    | EmptyString => false
    | String a s' =>
        (Ascii.eqb p SearchEngine.underscore
         || Ascii.eqb (SearchEngine.lower p) (SearchEngine.lower a))
        && SearchEngine.pattern_compare pat s'
    end.
Proof. intros H. simpl. now rewrite H. Qed.


(** ** Referential integrity *)

Lemma NoDup_snoc {A} (l : list A) (a : A) :
  NoDup l -> ~ In a l -> NoDup (l ++ [a]).
Proof.
  induction l as [|x l IH]; simpl; intros Hnd Hin.
  - constructor; [tauto|constructor].
  - inversion Hnd as [|? ? Hx Hl]; subst. constructor.
    + rewrite in_app_iff; simpl. intros [H|[H|[]]]; [tauto|]. apply Hin. now left.
    + apply IH; [exact Hl|]. tauto.
Qed.

Lemma in_map_filter {A B} (f : A -> B) (p : A -> bool) (l : list A) (y : B) :
  In y (map f (filter p l)) -> In y (map f l).
Proof.
  intros H. apply in_map_iff in H as (x & <- & Hx).
  apply filter_In in Hx as [Hx _]. now apply in_map.
Qed.

(** Deleting rows keeps a key unique. *)
Lemma NoDup_map_filter {R K} (key : R -> K) (keep : R -> bool) (rows : list R)
  (Hkey : NoDup (map key rows)) : NoDup (map key (filter keep rows)).
Proof.
  induction rows as [|x rows IH]; simpl in *; [constructor|].
  inversion Hkey as [|? ? Hx Hrows]; subst.
  destruct (keep x); simpl; [|now apply IH].
  constructor; [|now apply IH].
  intros Hin. apply Hx. now apply in_map_filter in Hin.
Qed.

Lemma has_file_In (id : Z) (db : DB) :
  has_file id db = true <-> In id (map file_id (files db)).
Proof.
  unfold has_file. rewrite existsb_exists. split.
  - intros (r & Hr & E). apply Z.eqb_eq in E. subst. now apply in_map.
  - intros H. apply in_map_iff in H as (r & E & Hr). exists r. split; [exact Hr|].
    now apply Z.eqb_eq.
Qed.

Lemma has_tag_In (id : Z) (db : DB) :
  has_tag id db = true <-> In id (map tag_id (tags db)).
Proof.
  unfold has_tag. rewrite existsb_exists. split.
  - intros (r & Hr & E). apply Z.eqb_eq in E. subst. now apply in_map.
  - intros H. apply in_map_iff in H as (r & E & Hr). exists r. split; [exact Hr|].
    now apply Z.eqb_eq.
Qed.

Lemma next_rowid_fresh (seq : Z) (ids : list Z) : ~ In (next_rowid seq ids) ids.
Proof. intros H. apply (next_rowid_above seq) in H. lia. Qed.

Lemma consistent_empty : consistent empty.
Proof. constructor; simpl; try constructor; tauto. Qed.

Lemma consistent_insert_file (name path metadata : string) (db : DB) :
  consistent db -> consistent (fst (insert_file name path metadata db)).
Proof.
  intros [H1 H2 H3 H4 H5]. constructor; simpl.
  - rewrite map_app. apply NoDup_snoc; [exact H1|]. apply next_rowid_fresh.
  - exact H2.
  - exact H3.
  - intros r Hr. apply has_file_In. simpl. rewrite map_app. apply in_or_app. left.
    apply has_file_In. now apply H4.
  - intros r Hr. exact (H5 r Hr).
Qed.

Lemma consistent_insert_tag (name ty : string) (db db' : DB) (id : Z) :
  consistent db -> insert_tag name ty db = Some (db', id) -> consistent db'.
Proof.
  intros [H1 H2 H3 H4 H5] E. unfold insert_tag in E.
  destruct (type_ok ty); [|discriminate]. injection E as <- _.
  constructor; simpl.
  - exact H1.
  - rewrite map_app. apply NoDup_snoc; [exact H2|]. apply next_rowid_fresh.
  - exact H3.
  - intros r Hr. exact (H4 r Hr).
  - intros r Hr. apply has_tag_In. simpl. rewrite map_app. apply in_or_app. left.
    apply has_tag_In. now apply H5.
Qed.

Lemma consistent_delete_file (id : Z) (db : DB) :
  consistent db -> consistent (delete_file id db).
Proof.
  intros [H1 H2 H3 H4 H5]. constructor; simpl.
  - now apply NoDup_map_filter.
  - exact H2.
  - now apply NoDup_map_filter.
  - intros r Hr. apply filter_In in Hr as [Hr Hne].
    apply has_file_In. simpl.
    pose proof (proj1 (has_file_In _ _) (H4 r Hr)) as Hin.
    apply in_map_iff in Hin as (f & E & Hf). apply in_map_iff. exists f.
    split; [exact E|]. apply filter_In. split; [exact Hf|]. now rewrite E.
  - intros r Hr. apply filter_In in Hr as [Hr _]. exact (H5 r Hr).
Qed.

Lemma consistent_delete_tag (id : Z) (db : DB) :
  consistent db -> consistent (Store.delete_tag id db).
Proof.
  intros [H1 H2 H3 H4 H5]. constructor; simpl.
  - exact H1.
  - now apply NoDup_map_filter.
  - now apply NoDup_map_filter.
  - intros r Hr. apply filter_In in Hr as [Hr _]. exact (H4 r Hr).
  - intros r Hr. apply filter_In in Hr as [Hr Hne].
    apply has_tag_In. simpl.
    pose proof (proj1 (has_tag_In _ _) (H5 r Hr)) as Hin.
    apply in_map_iff in Hin as (t & E & Ht). apply in_map_iff. exists t.
    split; [exact E|]. apply filter_In. split; [exact Ht|]. now rewrite E.
Qed.

Lemma consistent_set_files (fs : list FileRow) (db : DB) :
  map file_id fs = map file_id (files db) ->
  consistent db -> consistent (set_files fs db).
Proof.
  intros E [H1 H2 H3 H4 H5]. constructor; simpl.
  - now rewrite E.
  - exact H2.
  - exact H3.
  - intros r Hr. apply has_file_In. simpl. rewrite E. apply has_file_In. now apply H4.
  - intros r Hr. exact (H5 r Hr).
Qed.

Lemma consistent_replace_file_tag (fid tid : Z) (v : option string) (db db' : DB) :
  consistent db -> replace_file_tag fid tid v db = Some db' -> consistent db'.
Proof.
  intros [H1 H2 H3 H4 H5] E. unfold replace_file_tag in E.
  destruct (has_file fid db) eqn:Hf; [|discriminate].
  destruct (has_tag tid db) eqn:Ht; [|discriminate].
  injection E as <-. constructor; simpl.
  - exact H1.
  - exact H2.
  - rewrite map_app. apply NoDup_snoc; [now apply NoDup_map_filter|].
    simpl. intros Hin. apply in_map_iff in Hin as (r & Er & Hr).
    apply filter_In in Hr as [_ Hr]. injection Er as E1 E2.
    unfold same_key in Hr. rewrite E1, E2, !Z.eqb_refl in Hr. discriminate.
  - intros r Hr. apply in_app_or in Hr as [Hr|[<-|[]]].
    + apply filter_In in Hr as [Hr _]. exact (H4 r Hr).
    + exact Hf.
  - intros r Hr. apply in_app_or in Hr as [Hr|[<-|[]]].
    + apply filter_In in Hr as [Hr _]. exact (H5 r Hr).
    + exact Ht.
Qed.

Lemma consistent_delete_file_tag (fid tid : Z) (db : DB) :
  consistent db -> consistent (delete_file_tag fid tid db).
Proof.
  intros [H1 H2 H3 H4 H5]. constructor; simpl.
  - exact H1.
  - exact H2.
  - now apply NoDup_map_filter.
  - intros r Hr. apply filter_In in Hr as [Hr _]. exact (H4 r Hr).
  - intros r Hr. apply filter_In in Hr as [Hr _]. exact (H5 r Hr).
Qed.

Lemma consistent_insert_log (action : string) (db : DB) :
  consistent db -> consistent (insert_log action db).
Proof.
  intros [H1 H2 H3 H4 H5]. constructor; simpl.
  - exact H1.
  - exact H2.
  - exact H3.
  - intros r Hr. exact (H4 r Hr).
  - intros r Hr. exact (H5 r Hr).
Qed.

Lemma verify_rows_id (e : string -> bool) (rows : list (Z * string)) (r : FileRow) :
  file_id (fold_left (fun r0 row => verify_row e row r0) rows r) = file_id r.
Proof.
  revert r; induction rows as [|row rows IH]; intros r; simpl; [reflexivity|].
  now rewrite IH, verify_row_id.
Qed.

Lemma settled_fresh : settled fresh.
Proof. split; [exact consistent_empty|reflexivity]. Qed.

Lemma settled_log_action (a : bool) (action : string) (c : Conn) :
  settled c -> settled (snd (FileManager.log_action a action c)).
Proof.
  intros [Hc He]. destruct a; simpl; [|now split].
  split; [now apply consistent_insert_log|reflexivity].
Qed.

Lemma settled_update_file_path (a : bool) (old_path new_path : string) (c : Conn) :
  settled c -> settled (snd (FileManager.update_file_path a old_path new_path c)).
Proof.
  intros [Hc He]. unfold FileManager.update_file_path. apply settled_log_action.
  split; [|reflexivity]. simpl. apply consistent_set_files; [|exact Hc].
  rewrite map_map. apply map_ext. intros r. now destruct (String.eqb _ _).
Qed.

Lemma settled_verify_all_files (e : string -> bool) (c : Conn) :
  settled c -> settled (FileManager.verify_all_files e c).
Proof.
  intros [Hc He]. unfold FileManager.verify_all_files. split.
  - rewrite verify_fold_working. apply consistent_set_files; [|exact Hc].
    rewrite map_map. apply map_ext. intros r. apply verify_rows_id.
  - now apply verify_fold_settled.
Qed.

Lemma settled_create_tag (a : bool) (name ty : string) (c : Conn) :
  settled c -> settled (snd (TagManager.create_tag a name ty c)).
Proof.
  intros [Hc He]. unfold TagManager.create_tag.
  destruct (insert_tag name ty (working c)) as [[db id]|] eqn:E; [|now split].
  pose proof (consistent_insert_tag _ _ _ _ _ Hc E) as Hdb.
  destruct a; simpl; split; try reflexivity; [now apply consistent_insert_log|exact Hdb].
Qed.

Lemma settled_delete_tag (a : bool) (id : Z) (c : Conn) :
  settled c -> settled (snd (TagManager.delete_tag a id c)).
Proof.
  intros [Hc He]. unfold TagManager.delete_tag, with_conn.
  destruct a; simpl; split; try reflexivity.
  - now apply consistent_insert_log, consistent_delete_tag.
  - unfold rollback, execute; simpl. now rewrite He.
Qed.

Lemma settled_assign_tag_to_file (a : bool) (fid tid : Z) (v : option string) (c : Conn) :
  settled c -> settled (snd (TagManager.assign_tag_to_file a fid tid v c)).
Proof.
  intros [Hc He]. unfold TagManager.assign_tag_to_file, with_conn.
  destruct (replace_file_tag fid tid v (working c)) as [db|] eqn:E.
  - pose proof (consistent_replace_file_tag _ _ _ _ _ Hc E) as Hdb.
    destruct a; simpl; split; try reflexivity.
    + now apply consistent_insert_log.
    + unfold rollback; simpl. now rewrite He.
  - unfold rollback; simpl. split; [simpl; now rewrite He|reflexivity].
Qed.

Lemma settled_remove_tag_from_file (a : bool) (fid tid : Z) (c : Conn) :
  settled c -> settled (snd (TagManager.remove_tag_from_file a fid tid c)).
Proof.
  intros [Hc He]. unfold TagManager.remove_tag_from_file, with_conn.
  destruct a; simpl; split; try reflexivity.
  - now apply consistent_insert_log, consistent_delete_file_tag.
  - unfold rollback, execute; simpl. now rewrite He.
Qed.

Lemma settled_run (op : Op) (c : Conn) : settled c -> settled (run op c).
Proof.
  intros H. destruct op; simpl.
  - destruct H as [Hc _]. split; [|reflexivity].
    exact (consistent_insert_file _ _ _ _ Hc).
  - destruct H as [Hc _]. split; [|reflexivity].
    exact (consistent_delete_file _ _ Hc).
  - now apply settled_update_file_path.
  - now apply settled_verify_all_files.
  - now apply settled_create_tag.
  - now apply settled_delete_tag.
  - now apply settled_assign_tag_to_file.
  - now apply settled_remove_tag_from_file.
Qed.

Lemma reachable_settled (c : Conn) : reachable c -> settled c.
Proof.
  induction 1 as [|op c _ IH]; [exact settled_fresh|now apply settled_run].
Qed.

(** C9: in every state reached from a new store by calls of the Catalog and
    of the Tag Store, every association row names a file and a tag that
    exist, in the connection's view and on disk alike; after [remove_file]
    no association names the removed file, and after a [delete_tag] that
    went through no association names the deleted tag. *)
Theorem no_dangling_association (c : Conn) :
  reachable c ->
  (forall r, In r (file_tags (working c)) ->
     has_file (ft_file_id r) (working c) = true
     /\ has_tag (ft_tag_id r) (working c) = true)
  /\ committed c = working c
  /\ (forall id r, In r (file_tags (working (FileManager.remove_file id c))) ->
        ft_file_id r <> id)
  /\ (forall id r, In r (file_tags (working (snd (TagManager.delete_tag true id c)))) ->
        ft_tag_id r <> id).
Proof.
  intros H. apply reachable_settled in H as [[_ _ _ Hf Ht] He].
  split; [|split; [exact He|split]].
  - intros r Hr. split; [now apply Hf|now apply Ht].
  - intros id r Hr. simpl in Hr. apply filter_In in Hr as [_ Hr].
    apply negb_true_iff, Z.eqb_neq in Hr. exact Hr.
  - intros id r Hr. simpl in Hr. apply filter_In in Hr as [_ Hr].
    apply negb_true_iff, Z.eqb_neq in Hr. exact Hr.
Qed.

(** The statement of C9 at the store reached by adding a file, creating a
    tag, assigning it, and then trying to assign a tag that does not exist. *)
Lemma no_dangling_association_witness :
  let c := run (OpAssignTagToFile true 1 9 None)
             (run (OpAssignTagToFile true 1 1 (Some "pdf document"))
                (run (OpCreateTag true "file_type" "string")
                   (run (OpAddFile "/a/report.pdf" "") fresh))) in
  reachable c
  /\ file_tags (working c) = [mkFileTag 1 1 (Some "pdf document")]
  /\ (forall r, In r (file_tags (working c)) ->
        has_file (ft_file_id r) (working c) = true
        /\ has_tag (ft_tag_id r) (working c) = true).
Proof.
  intros c.
  assert (Hr : reachable c) by (repeat apply reachable_run; exact reachable_fresh).
  split; [exact Hr|]. split; [reflexivity|].
  exact (proj1 (no_dangling_association c Hr)).
Defined.

(** ** LIKE against substring matching *)

Lemma pattern_prefix (q t : string) :
  SearchEngine.has_wildcard q = false ->
  SearchEngine.pattern_compare (q ++ "%") t = SearchEngine.prefix_nocase q t.
Proof.
  revert t; induction q as [|a q IH]; intros t H.
  - simpl. rewrite pattern_percent_any. now destruct t.
  - unfold SearchEngine.has_wildcard in *. simpl in H.
    apply orb_false_elim in H as [Hp Hu].
    apply orb_false_elim in Hp as [Hp Hp'].
    apply orb_false_elim in Hu as [Hu Hu'].
    simpl. rewrite Hp. destruct t as [|b t]; [reflexivity|].
    rewrite Hu. simpl. f_equal. apply IH. now rewrite Hp', Hu'.
Qed.

Lemma pattern_contains (q s : string) :
  SearchEngine.has_wildcard q = false ->
  SearchEngine.pattern_compare (SearchEngine.pattern q) s
  = SearchEngine.contains_nocase q s.
Proof.
  intros H. unfold SearchEngine.pattern.
  induction s as [|a s IH]; rewrite pattern_percent_unfold;
    cbn [SearchEngine.contains_nocase]; rewrite (pattern_prefix q _ H).
  - reflexivity.
  - now rewrite IH.
Qed.

Lemma c_string_pattern (q : string) :
  Str.mem Str.nul q = false ->
  Str.c_string (SearchEngine.pattern q) = SearchEngine.pattern q.
Proof.
  intros H. apply c_string_fixed. unfold SearchEngine.pattern. simpl.
  now rewrite mem_app, H.
Qed.

(** For a query with neither wildcard characters nor NUL, the LIKE test of
    the searches is substring matching, with ASCII letters folded, in the
    text up to its first NUL. *)
Lemma like_query_contains (q s : string) :
  SearchEngine.has_wildcard q = false ->
  Str.mem Str.nul q = false ->
  like_query q s = literal_match_nocase q s.
Proof.
  intros Hw Hn. unfold like_query, SearchEngine.like, literal_match_nocase.
  rewrite (c_string_pattern q Hn). now apply pattern_contains.
Qed.

Lemma existsb_ext {A} (f g : A -> bool) (l : list A) :
  (forall x, f x = g x) -> existsb f l = existsb g l.
Proof.
  intros H. induction l as [|a l IH]; simpl; [reflexivity|]. now rewrite H, IH.
Qed.

Lemma file_matches_ext (sub1 sub2 : string -> string -> bool) (q : string) (db : DB) (f : FileRow) :
  (forall s, sub1 q s = sub2 q s) ->
  SearchEngine.file_matches sub1 q db f = SearchEngine.file_matches sub2 q db f.
Proof.
  intros H. unfold SearchEngine.file_matches. rewrite !H. f_equal.
  apply existsb_ext. intros ft. f_equal. f_equal.
  - unfold SearchEngine.contains_null. destruct (ft_value ft); [apply H|reflexivity].
  - apply existsb_ext. intros t. now rewrite H.
Qed.

(** ** The join of [search_all] *)

Lemma in_left_join {B} (on : B -> bool) (right : list B) (o : option B) :
  In o (SearchEngine.left_join on right)
  <-> (o = None /\ filter on right = [])
      \/ (exists r, o = Some r /\ In r right /\ on r = true).
Proof.
  unfold SearchEngine.left_join. destruct (filter on right) as [|x rows] eqn:E.
  - simpl. split.
    + intros [<-|[]]. now left.
    + intros [[-> _]|(r & _ & Hr & Hon)]; [now left|].
      assert (Hin : In r (filter on right)) by (apply filter_In; now split).
      rewrite E in Hin. destruct Hin.
  - rewrite <- E. split.
    + intros H. apply in_map_iff in H as (r & <- & Hr).
      apply filter_In in Hr as [Hr Hon]. right. now exists r.
    + intros [[_ H]|(r & -> & Hr & Hon)]; [rewrite E in H; discriminate|].
      apply in_map. apply filter_In. now split.
Qed.

Lemma left_join_inhabited {B} (on : B -> bool) (right : list B) :
  exists o, In o (SearchEngine.left_join on right).
Proof.
  unfold SearchEngine.left_join. destruct (filter on right) as [|x rows].
  - exists None. now left.
  - exists (Some x). now left.
Qed.

Lemma in_joined (db : DB) (f : FileRow) (oft : option FileTagRow) (ot : option TagRow) :
  In (f, oft, ot) (SearchEngine.joined db)
  <-> In f (files db)
      /\ In oft (SearchEngine.left_join (fun ft => file_id f =? ft_file_id ft) (file_tags db))
      /\ In ot (SearchEngine.left_join
                  (fun t => match oft with
                            | Some r => tag_id t =? ft_tag_id r
                            | None => false
                            end) (tags db)).
Proof.
  unfold SearchEngine.joined. rewrite in_flat_map. split.
  - intros (f0 & Hf0 & H). apply in_flat_map in H as (oft0 & Hoft & H).
    apply in_map_iff in H as (ot0 & E & Hot). injection E as -> -> ->. auto.
  - intros (Hf & Hoft & Hot). exists f. split; [exact Hf|].
    apply in_flat_map. exists oft. split; [exact Hoft|].
    apply in_map_iff. now exists ot.
Qed.

(** A file has a joined row that passes the WHERE clause exactly when one
    of its five columns passes the LIKE test. *)
Lemma where_all_file_matches (q : string) (db : DB) (f : FileRow) :
  In f (files db) ->
  (exists oft ot, In (f, oft, ot) (SearchEngine.joined db)
                  /\ SearchEngine.where_all (SearchEngine.pattern q) (f, oft, ot) = true)
  <-> SearchEngine.file_matches like_query q db f = true.
Proof.
  intros Hf. unfold SearchEngine.file_matches, SearchEngine.where_all, like_query.
  split.
  - intros (oft & ot & Hj & Hw). apply in_joined in Hj as (_ & Hoft & Hot).
    rewrite !orb_true_iff in Hw. rewrite !orb_true_iff.
    destruct Hw as [[[[Hw|Hw]|Hw]|Hw]|Hw]; auto.
    + destruct ot as [t|]; [|discriminate]. simpl in Hw.
      apply in_left_join in Hot as [[E _]|(t' & E & Ht & Hon)]; [discriminate|].
      injection E as <-.
      destruct oft as [ft|]; [|discriminate].
      apply in_left_join in Hoft as [[E _]|(ft' & E & Hft & Hid)]; [discriminate|].
      injection E as <-.
      right. apply existsb_exists. exists ft. split; [exact Hft|].
      rewrite Hid. simpl. apply orb_true_iff. right.
      apply existsb_exists. exists t. split; [exact Ht|]. now rewrite Hon.
    + destruct oft as [ft|]; [|discriminate].
      apply in_left_join in Hoft as [[E _]|(ft' & E & Hft & Hid)]; [discriminate|].
      injection E as <-.
      right. apply existsb_exists. exists ft. split; [exact Hft|].
      rewrite Hid. simpl. apply orb_true_iff. left. exact Hw.
  - intros H. rewrite !orb_true_iff in H.
    destruct H as [Hcol|Hex].
    + destruct (left_join_inhabited (fun ft => file_id f =? ft_file_id ft) (file_tags db))
        as [oft Hoft].
      destruct (left_join_inhabited
                  (fun t => match oft with
                            | Some r => tag_id t =? ft_tag_id r
                            | None => false
                            end) (tags db)) as [ot Hot].
      exists oft, ot. split; [apply in_joined; auto|].
      rewrite !orb_true_iff. left; left. destruct Hcol as [[Hc|Hc]|Hc]; auto.
    + apply existsb_exists in Hex as (ft & Hft & Hex).
      apply andb_true_iff in Hex as [Hid Hex].
      assert (Hoft : In (Some ft)
                (SearchEngine.left_join (fun x => file_id f =? ft_file_id x) (file_tags db))).
      { apply in_left_join. right. now exists ft. }
      apply orb_true_iff in Hex as [Hval|Hname].
      * destruct (left_join_inhabited (fun t => tag_id t =? ft_tag_id ft) (tags db))
          as [ot Hot].
        exists (Some ft), ot. split; [apply in_joined; auto|].
        rewrite !orb_true_iff. right. exact Hval.
      * apply existsb_exists in Hname as (t & Ht & Hname).
        apply andb_true_iff in Hname as [Htid Hname].
        exists (Some ft), (Some t). split.
        -- apply in_joined. split; [exact Hf|]. split; [exact Hoft|].
           apply in_left_join. right. now exists t.
        -- rewrite !orb_true_iff. left; right. exact Hname.
Qed.

Lemma joined_of_files (db : DB) : SearchEngine.joined db = [] -> files db = [].
Proof.
  destruct (files db) as [|f l] eqn:E; [reflexivity|]. intros H. exfalso.
  destruct (left_join_inhabited (fun ft => file_id f =? ft_file_id ft) (file_tags db))
    as [oft Hoft].
  destruct (left_join_inhabited
              (fun t => match oft with
                        | Some r => tag_id t =? ft_tag_id r
                        | None => false
                        end) (tags db)) as [ot Hot].
  assert (Hin : In (f, oft, ot) (SearchEngine.joined db)).
  { apply in_joined. rewrite E. split; [now left|]. now split. }
  rewrite H in Hin. destruct Hin.
Qed.

(** Within the limit on the pattern, [search_all] returns its rows. *)
Lemma search_all_within_limit (q : string) (c : Conn) :
  SearchEngine.too_complex (SearchEngine.pattern q) = false ->
  SearchEngine.search_all q c
  = Returned (nodup SearchEngine.result_eq_dec
                (map (fun j => FileManager.select_row (fst (fst j)))
                     (filter (SearchEngine.where_all (SearchEngine.pattern q))
                             (SearchEngine.joined (working c))))).
Proof.
  intros H. unfold SearchEngine.search_all. rewrite H.
  now destruct (SearchEngine.joined (working c)).
Qed.

Lemma search_all_returned (q : string) (c : Conn) (rows : list (Z * string * string * string)) :
  SearchEngine.search_all q c = Returned rows ->
  rows = nodup SearchEngine.result_eq_dec
           (map (fun j => FileManager.select_row (fst (fst j)))
                (filter (SearchEngine.where_all (SearchEngine.pattern q))
                        (SearchEngine.joined (working c)))).
Proof.
  unfold SearchEngine.search_all.
  destruct (SearchEngine.joined (working c)) as [|j l]; [intros H; now injection H as <-|].
  destruct (SearchEngine.too_complex _); [discriminate|]. intros H. now injection H as <-.
Qed.

Lemma search_all_over_limit (q : string) (c : Conn) :
  SearchEngine.too_complex (SearchEngine.pattern q) = true ->
  files (working c) <> [] ->
  SearchEngine.search_all q c = Raised OperationalError.
Proof.
  intros H Hf. unfold SearchEngine.search_all. rewrite H.
  destruct (SearchEngine.joined (working c)) eqn:E; [|reflexivity].
  apply joined_of_files in E. contradiction.
Qed.

Lemma in_search_all (q : string) (c : Conn) (rows : list (Z * string * string * string))
  (row : Z * string * string * string) :
  SearchEngine.search_all q c = Returned rows ->
  (In row rows
   <-> exists f, In f (files (working c))
                 /\ row = FileManager.select_row f
                 /\ SearchEngine.file_matches like_query q (working c) f = true).
Proof.
  intros Hrows. apply search_all_returned in Hrows. subst rows.
  rewrite nodup_In, in_map_iff. split.
  - intros ([[f oft] ot] & <- & Hj). apply filter_In in Hj as [Hj Hw].
    exists f. simpl.
    assert (Hf : In f (files (working c))) by (apply in_joined in Hj; tauto).
    split; [exact Hf|]. split; [reflexivity|].
    apply where_all_file_matches; [exact Hf|]. now exists oft, ot.
  - intros (f & Hf & -> & Hm).
    apply where_all_file_matches in Hm as (oft & ot & Hj & Hw); [|exact Hf].
    exists (f, oft, ot). split; [reflexivity|]. apply filter_In. now split.
Qed.

Lemma NoDup_map_injective_on {A B} (g : A -> B) (l : list A) (a b : A) :
  NoDup (map g l) -> In a l -> In b l -> g a = g b -> a = b.
Proof.
  induction l as [|x l IH]; simpl; intros Hnd Ha Hb E; [tauto|].
  inversion Hnd as [|? ? Hx Hl]; subst.
  destruct Ha as [->|Ha], Hb as [->|Hb]; auto.
  - exfalso. apply Hx. rewrite E. now apply in_map.
  - exfalso. apply Hx. rewrite <- E. now apply in_map.
Qed.

(** C6, as amended: while the pattern is within the limit of 50000 bytes
    [search_all] returns, and in a store whose file ids are unique what it
    returns holds no file twice, whatever the number of its columns, tags
    and values that match; the files returned are those with a column
    (path, name, metadata, name of an attached tag, value of an
    association) that passes the LIKE test for the query; and for a query
    with neither [%], [_] nor NUL that test is substring matching, with
    ASCII letters folded, in the text up to its first NUL.  Over the limit
    the search of a catalog that is not empty raises. *)
Theorem search_all_each_file_once (q : string) (c : Conn) :
  NoDup (map file_id (files (working c))) ->
  (SearchEngine.too_complex (SearchEngine.pattern q) = false ->
   exists rows, SearchEngine.search_all q c = Returned rows)
  /\ (SearchEngine.too_complex (SearchEngine.pattern q) = true ->
      files (working c) <> [] ->
      SearchEngine.search_all q c = Raised OperationalError)
  /\ forall rows,
       SearchEngine.search_all q c = Returned rows ->
       NoDup (map result_id rows)
       /\ (forall row,
             In row rows
             <-> exists f, In f (files (working c))
                           /\ row = FileManager.select_row f
                           /\ SearchEngine.file_matches like_query q (working c) f = true)
       /\ (SearchEngine.has_wildcard q = false ->
           Str.mem Str.nul q = false ->
           forall row,
             In row rows
             <-> exists f, In f (files (working c))
                           /\ row = FileManager.select_row f
                           /\ SearchEngine.file_matches literal_match_nocase q
                                (working c) f = true).
Proof.
  intros Hnd. split; [|split].
  - intros H. eexists. now apply search_all_within_limit.
  - apply search_all_over_limit.
  - intros rows Hrows. split; [|split].
    + apply NoDup_map_NoDup_ForallPairs.
      * intros x y Hx Hy E.
        apply (in_search_all q c rows x Hrows) in Hx as (f1 & Hf1 & -> & _).
        apply (in_search_all q c rows y Hrows) in Hy as (f2 & Hf2 & -> & _).
        f_equal. apply (NoDup_map_injective_on file_id _ f1 f2 Hnd Hf1 Hf2 E).
      * rewrite (search_all_returned q c rows Hrows). apply NoDup_nodup.
    + intros row. now apply in_search_all.
    + intros Hq Hn row. rewrite (in_search_all q c rows row Hrows).
      split; intros (f & Hf & Hrow & Hm); exists f; (split; [exact Hf|split; [exact Hrow|]]).
      * rewrite <- Hm. symmetry. apply file_matches_ext.
        intros s. now apply like_query_contains.
      * rewrite <- Hm. apply file_matches_ext.
        intros s. now apply like_query_contains.
Qed.

(** The statement of C6 for a file whose metadata and two tag values all
    hold the query: it is returned once. *)
Lemma search_all_each_file_once_witness :
  let c := run (OpAssignTagToFile true 1 2 (Some "scanned pdf"))
             (run (OpAssignTagToFile true 1 1 (Some "pdf document"))
                (run (OpCreateTag true "auto" "string")
                   (run (OpCreateTag true "file_type" "string")
                      (run (OpAddFile "/a/report.doc" "pdf notes") fresh)))) in
  NoDup (map file_id (files (working c)))
  /\ SearchEngine.search_all "pdf" c
     = Returned [(1, "report.doc", "/a/report.doc", "pdf notes")]
  /\ NoDup (map result_id [(1, "report.doc", "/a/report.doc", "pdf notes")]).
Proof.
  intros c.
  assert (Hnd : NoDup (map file_id (files (working c)))).
  { simpl. repeat constructor; simpl; tauto. }
  assert (Hrows : SearchEngine.search_all "pdf" c
                  = Returned [(1, "report.doc", "/a/report.doc", "pdf notes")])
    by reflexivity.
  split; [exact Hnd|]. split; [exact Hrows|].
  exact (proj1 (proj2 (proj2 (search_all_each_file_once "pdf" c Hnd)) _ Hrows)).
Defined.

(** C6, as stated, fails: for the query [r_p] the file [/a/report.pdf] is
    returned although none of its columns holds [r_p] as a substring, so
    the result is not the union of the substring matches. *)
Lemma search_all_not_substring_union :
  let c := snd (FileManager.add_file "/a/report.pdf" "quarterly" fresh) in
  SearchEngine.search_all "r_p" c
  = Returned [(1, "report.pdf", "/a/report.pdf", "quarterly")]
  /\ ~ (forall row,
          In row [(1, "report.pdf", "/a/report.pdf", "quarterly")]
          <-> exists f, In f (files (working c))
                        /\ row = FileManager.select_row f
                        /\ SearchEngine.file_matches SearchEngine.contains "r_p"
                             (working c) f = true).
Proof.
  intros c. split; [reflexivity|]. intros H.
  destruct (proj1 (H (1, "report.pdf", "/a/report.pdf", "quarterly")))
    as (f & Hf & _ & Hm).
  - now left.
  - destruct Hf as [<-|[]]. vm_compute in Hm. discriminate.
Qed.

(** ** Scenarios *)

Example basename_report : PosixPath.basename "/a/report.pdf" = "report.pdf".
Proof. reflexivity. Qed.

Example basename_trailing_separator : PosixPath.basename "/a/b/" = "".
Proof. reflexivity. Qed.

Example dirname_report : PosixPath.dirname "/a/report.pdf" = "/a".
Proof. reflexivity. Qed.

Example candidate_is_own_path : candidate "/a/report.pdf" = "/a/report.pdf".
Proof. reflexivity. Qed.

(** A record at [/a/old.txt] whose file is moved to [/b/new.txt] shows the
    new path and the new name. *)
Example move_scenario :
  let c := snd (FileManager.add_file "/a/old.txt" "" fresh) in
  FileManager.get_file 1 (snd (FileManager.update_file_path true "/a/old.txt" "/b/new.txt" c))
  = Some (1, "new.txt", "/b/new.txt", "").
Proof. reflexivity. Qed.

(** Removing a file that carries a tag leaves neither the record nor the
    association. *)
Example cascade_scenario :
  let c := run (OpAssignTagToFile true 1 1 (Some "pdf document"))
             (run (OpCreateTag true "file_type" "string")
                (run (OpAddFile "/a/report.pdf" "") fresh)) in
  TagManager.get_tags_for_file 1 c = [(1, "file_type", "string", Some "pdf document")]
  /\ TagManager.get_tags_for_file 1 (FileManager.remove_file 1 c) = []
  /\ file_tags (committed (FileManager.remove_file 1 c)) = [].
Proof. repeat split. Qed.

Example like_folds_case : SearchEngine.like "%REPORT%" "/a/report.pdf" = true.
Proof. reflexivity. Qed.

(** LIKE does not see what follows a NUL: a path that holds [b] only after
    a NUL is found under neither search for [b]. *)
Example like_stops_at_nul :
  let path := String "a" (String Str.nul "b") in
  let c := snd (FileManager.add_file path "" fresh) in
  SearchEngine.search_by_filename "b" c = Returned []
  /\ SearchEngine.search_all "b" c = Returned []
  /\ SearchEngine.contains "b" path = true.
Proof. repeat split. Qed.

Lemma utf8_length_app (a b : string) :
  Str.utf8_length (a ++ b) = Str.utf8_length a + Str.utf8_length b.
Proof.
  induction a as [|x a IH]; [reflexivity|].
  cbn [String.append Str.utf8_length]. rewrite IH. lia.
Qed.

(** A query of more than 49998 bytes makes a pattern that LIKE refuses:
    [search_by_filename] raises as soon as the catalog holds a file. *)
Lemma search_by_filename_over_limit (q : string) (c : Conn) :
  49998 < Str.utf8_length q ->
  files (working c) <> [] ->
  SearchEngine.too_complex (SearchEngine.pattern q) = true
  /\ SearchEngine.search_by_filename q c = Raised OperationalError.
Proof.
  intros Hq Hf.
  assert (H : SearchEngine.too_complex (SearchEngine.pattern q) = true).
  { unfold SearchEngine.too_complex, SearchEngine.pattern, SearchEngine.like_pattern_limit.
    cbn [Str.utf8_length]. rewrite utf8_length_app. cbn [Str.utf8_length].
    change (N_of_ascii SearchEngine.percent <? 128)%N with true. cbv iota.
    apply Z.ltb_lt. lia. }
  split; [exact H|].
  unfold SearchEngine.search_by_filename. rewrite H.
  destruct (files (working c)); [contradiction|reflexivity].
Qed.

Example create_tag_rejects_kind :
  fst (TagManager.create_tag true "size" "float" fresh) = Raised IntegrityError.
Proof. reflexivity. Qed.

(** * Further properties of the code *)

(** ** Lists *)

Lemma filter_twice {A} (f : A -> bool) (l : list A) :
  filter f (filter f l) = filter f l.
Proof.
  induction l as [|a l IH]; simpl; [reflexivity|].
  destruct (f a) eqn:E; simpl; [now rewrite E, IH|exact IH].
Qed.

Lemma filter_all {A} (f : A -> bool) (l : list A) :
  (forall x, In x l -> f x = true) -> filter f l = l.
Proof.
  induction l as [|a l IH]; simpl; intros H; [reflexivity|].
  rewrite (H a) by now left. f_equal. apply IH. intros x Hx. apply H. now right.
Qed.

Lemma filter_within {A} (f g : A -> bool) (l : list A) :
  (forall x, f x = true -> g x = true) ->
  filter f (filter g l) = filter f l.
Proof.
  intros H. induction l as [|a l IH]; simpl; [reflexivity|].
  destruct (g a) eqn:Eg; simpl.
  - now rewrite IH.
  - destruct (f a) eqn:Ef; [|exact IH].
    apply H in Ef. congruence.
Qed.

Lemma filter_map_swap {A} (f : A -> bool) (g : A -> A) (l : list A) :
  (forall x, f (g x) = f x) ->
  filter f (map g l) = map g (filter f l).
Proof.
  intros H. induction l as [|a l IH]; simpl; [reflexivity|].
  rewrite H. destruct (f a); simpl; now rewrite IH.
Qed.

(** ** More on the Catalog *)

(** X1: [add_file] appends one record to the listing and disturbs nothing
    else: every other id resolves as before, and the tags of every file are
    as before. *)
Theorem add_file_keeps_other_records (path metadata : string) (c : Conn) :
  let id := fst (FileManager.add_file path metadata c) in
  let c' := snd (FileManager.add_file path metadata c) in
  FileManager.list_files c'
  = (FileManager.list_files c ++ [(id, PosixPath.basename path, path, metadata)])%list
  /\ (forall id', id' <> id -> FileManager.get_file id' c' = FileManager.get_file id' c)
  /\ (forall fid, TagManager.get_tags_for_file fid c' = TagManager.get_tags_for_file fid c).
Proof.
  intros id c'. split; [|split].
  - unfold FileManager.list_files. subst c' id. simpl. now rewrite map_app.
  - intros id' Hne. subst c' id. unfold FileManager.get_file. simpl.
    rewrite filter_app. simpl.
    replace (next_rowid (files_seq (working c)) (map file_id (files (working c))) =? id')
      with false; [now rewrite app_nil_r|].
    symmetry. apply Z.eqb_neq. intros E. apply Hne. now rewrite <- E.
  - reflexivity.
Qed.

Lemma run_keeps_order (op : Op) (c : Conn) :
  committed c = working c ->
  committed (run op c) = working (run op c)
  /\ files_seq (working c) <= files_seq (working (run op c))
  /\ exists l, logs (working (run op c)) = (logs (working c) ++ l)%list
               /\ (List.length l <= 1)%nat.
Proof.
  intros He.
  assert (Hnil : exists l : list LogRow,
             logs (working c) = (logs (working c) ++ l)%list /\ (List.length l <= 1)%nat).
  { exists []. rewrite app_nil_r. split; [reflexivity|simpl; lia]. }
  destruct op as [p m|id|a o n|e|a n ty|a id|a f t v|a f t]; simpl.
  - split; [reflexivity|]. split; [unfold next_rowid; lia|exact Hnil].
  - split; [reflexivity|]. split; [lia|exact Hnil].
  - unfold FileManager.update_file_path. destruct a; simpl.
    + split; [reflexivity|]. split; [lia|]. eexists. split; [reflexivity|simpl; lia].
    + split; [reflexivity|]. split; [lia|exact Hnil].
  - unfold FileManager.verify_all_files. split; [now apply verify_fold_settled|].
    rewrite verify_fold_working. simpl. split; [lia|exact Hnil].
  - unfold TagManager.create_tag, insert_tag. destruct (type_ok ty); simpl.
    + destruct a; simpl.
      * split; [reflexivity|]. split; [lia|]. eexists. split; [reflexivity|simpl; lia].
      * split; [reflexivity|]. split; [lia|exact Hnil].
    + split; [exact He|]. split; [lia|exact Hnil].
  - unfold TagManager.delete_tag, with_conn. destruct a; simpl.
    + split; [reflexivity|]. split; [lia|]. eexists. split; [reflexivity|simpl; lia].
    + split; [reflexivity|]. rewrite He. split; [lia|exact Hnil].
  - unfold TagManager.assign_tag_to_file, with_conn, replace_file_tag.
    destruct (has_file f (working c) && has_tag t (working c)); simpl.
    + destruct a; simpl.
      * split; [reflexivity|]. split; [lia|]. eexists. split; [reflexivity|simpl; lia].
      * split; [reflexivity|]. rewrite He. split; [lia|exact Hnil].
    + split; [reflexivity|]. rewrite He. split; [lia|exact Hnil].
  - unfold TagManager.remove_tag_from_file, with_conn. destruct a; simpl.
    + split; [reflexivity|]. split; [lia|]. eexists. split; [reflexivity|simpl; lia].
    + split; [reflexivity|]. rewrite He. split; [lia|exact Hnil].
Qed.

Lemma run_all_keeps_order (ops : list Op) (c : Conn) :
  committed c = working c ->
  committed (run_all ops c) = working (run_all ops c)
  /\ files_seq (working c) <= files_seq (working (run_all ops c)).
Proof.
  unfold run_all.
  revert c; induction ops as [|op ops IH]; intros c He; simpl; [split; [exact He|lia]|].
  destruct (run_keeps_order op c He) as (He' & Hle & _).
  destruct (IH (run op c) He') as (He'' & Hle').
  split; [exact He''|]. lia.
Qed.

(** X2: file ids are never reused.  Whatever calls of the Catalog and of
    the Tag Store follow an [add_file], removals included, a later
    [add_file] returns a strictly larger id. *)
Theorem add_file_ids_never_reused (path metadata path' metadata' : string)
  (ops : list Op) (c : Conn) :
  let id := fst (FileManager.add_file path metadata c) in
  let c1 := snd (FileManager.add_file path metadata c) in
  id < fst (FileManager.add_file path' metadata' (run_all ops c1)).
Proof.
  intros id c1.
  assert (He : committed c1 = working c1) by reflexivity.
  destruct (run_all_keeps_order ops c1 He) as [_ Hle].
  assert (Hid : files_seq (working c1) = id) by reflexivity.
  assert (Hnew : files_seq (working (run_all ops c1))
                 < fst (FileManager.add_file path' metadata' (run_all ops c1))).
  { simpl. unfold next_rowid. lia. }
  lia.
Qed.

(** X3: [remove_file] is idempotent, and removing an id that names no
    record raises nothing and leaves the records as they are. *)
Theorem remove_file_idempotent (id : Z) (c : Conn) :
  FileManager.remove_file id (FileManager.remove_file id c) = FileManager.remove_file id c
  /\ (FileManager.get_file id c = None ->
      FileManager.list_files (FileManager.remove_file id c) = FileManager.list_files c).
Proof.
  split.
  - unfold FileManager.remove_file, commit, execute, delete_file. simpl.
    now rewrite !filter_twice.
  - unfold FileManager.get_file, FileManager.list_files, FileManager.remove_file. simpl.
    intros H. f_equal. apply filter_all. intros r Hr.
    destruct (file_id r =? id) eqn:E; [|reflexivity].
    assert (Hin : In r (filter (fun x => file_id x =? id) (files (working c))))
      by (apply filter_In; now split).
    destruct (filter _ _); [destruct Hin|discriminate].
Qed.

(** X4: [remove_file] touches one id only: any other id resolves to the
    same record and reports the same tags as before. *)
Theorem remove_file_keeps_other_records (id id' : Z) (c : Conn) :
  id' <> id ->
  FileManager.get_file id' (FileManager.remove_file id c) = FileManager.get_file id' c
  /\ TagManager.get_tags_for_file id' (FileManager.remove_file id c)
     = TagManager.get_tags_for_file id' c.
Proof.
  intros Hne. unfold FileManager.get_file, TagManager.get_tags_for_file,
    FileManager.remove_file. simpl. split.
  - rewrite filter_within; [reflexivity|].
    intros r E. apply Z.eqb_eq in E. apply negb_true_iff, Z.eqb_neq. congruence.
  - apply flat_map_ext. intros t. f_equal. apply filter_within.
    intros ft E. apply andb_true_iff in E as [_ E]. apply Z.eqb_eq in E.
    apply negb_true_iff, Z.eqb_neq. congruence.
Qed.

Lemma remove_file_keeps_other_records_witness :
  let c := run_all [OpAddFile "/a/x.txt" "one"; OpAddFile "/a/y.txt" "two";
                    OpCreateTag true "auto" "string";
                    OpAssignTagToFile true 2 1 (Some "cat")] fresh in
  2 <> 1
  /\ FileManager.get_file 2 (FileManager.remove_file 1 c) = Some (2, "y.txt", "/a/y.txt", "two")
  /\ TagManager.get_tags_for_file 2 (FileManager.remove_file 1 c)
     = [(1, "auto", "string", Some "cat")].
Proof.
  intros c. split; [lia|].
  assert (H : 2 <> 1) by lia.
  destruct (remove_file_keeps_other_records 1 2 c H) as [H1 H2].
  rewrite H1, H2. split; reflexivity.
Defined.

(** X5: a move whose old path names no record changes no record, raises
    nothing, and still writes its log row. *)
Theorem update_file_path_without_match (old_path new_path : string) (c : Conn) :
  (forall r, In r (files (working c)) -> file_path r <> old_path) ->
  let r := FileManager.update_file_path true old_path new_path c in
  fst r = Returned tt
  /\ files (working (snd r)) = files (working c)
  /\ map log_action (logs (working (snd r)))
     = app (map log_action (logs (working c)))
           ["Updated file path from " ++ old_path ++ " to " ++ new_path].
Proof.
  intros H r. subst r. unfold FileManager.update_file_path. simpl.
  split; [reflexivity|]. split.
  - rewrite (map_ext_in _ (fun x => x)); [apply map_id|].
    intros x Hx. apply H in Hx. apply String.eqb_neq in Hx. now rewrite Hx.
  - now rewrite map_app.
Qed.

Lemma update_file_path_without_match_witness :
  let c := snd (FileManager.add_file "/a/x.txt" "" fresh) in
  let r := FileManager.update_file_path true "/a/other.txt" "/b/other.txt" c in
  (forall x, In x (files (working c)) -> file_path x <> "/a/other.txt")
  /\ files (working (snd r)) = [mkFile 1 "/a/x.txt" "x.txt" ""]
  /\ map log_action (logs (working (snd r)))
     = ["Updated file path from /a/other.txt to /b/other.txt"].
Proof.
  intros c r.
  assert (H : forall x, In x (files (working c)) -> file_path x <> "/a/other.txt").
  { intros x [<-|[]]. discriminate. }
  split; [exact H|].
  destruct (update_file_path_without_match "/a/other.txt" "/b/other.txt" c H)
    as (_ & Hf & Hl).
  split; [exact Hf|exact Hl].
Defined.

(** X6: a move keeps ids, metadata and tags.  Looking a record up by id
    after [update_file_path] gives the record found before, with path and
    name replaced when its path was the old path; the tags reported for
    every file are the same. *)
Theorem update_file_path_keeps_ids_and_tags (a : bool) (old_path new_path : string) (c : Conn) :
  let c' := snd (FileManager.update_file_path a old_path new_path c) in
  (forall id,
      FileManager.get_file id c'
      = match FileManager.get_file id c with
        | None => None
        | Some (i, n, p, m) =>
            Some (if String.eqb p old_path
                  then (i, PosixPath.basename new_path, new_path, m)
                  else (i, n, p, m))
        end)
  /\ (forall fid, TagManager.get_tags_for_file fid c' = TagManager.get_tags_for_file fid c).
Proof.
  intros c'. split.
  - intros id. unfold FileManager.get_file.
    replace (files (working c')) with (map (moved old_path new_path) (files (working c)))
      by (subst c'; unfold FileManager.update_file_path;
          now rewrite (proj1 (log_action_files _ _ _))).
    rewrite filter_map_swap.
    + destruct (filter _ (files (working c))) as [|r l]; [reflexivity|].
      simpl. unfold moved, FileManager.select_row.
      now destruct (String.eqb (file_path r) old_path).
    + intros r. unfold moved. now destruct (String.eqb (file_path r) old_path).
  - intros fid. subst c'. unfold FileManager.update_file_path.
    destruct a; reflexivity.
Qed.

(** ** More on the verification of paths *)

Lemma verify_all_files_working (e : string -> bool) (c : Conn) :
  NoDup (map file_id (files (working c))) ->
  working (FileManager.verify_all_files e c)
  = set_files (map (repaired e) (files (working c))) (working c).
Proof.
  intros Hnd. unfold FileManager.verify_all_files. rewrite verify_fold_working.
  f_equal. apply map_ext_in. intros r Hr. now apply verify_rows_own.
Qed.

Lemma repaired_twice (e : string -> bool) (r : FileRow) :
  repaired e (repaired e r) = repaired e r.
Proof.
  unfold repaired.
  destruct (negb (e (file_path r)) && e (candidate (file_path r))) eqn:E; simpl.
  - apply andb_true_iff in E as [_ E]. now rewrite E.
  - now rewrite E.
Qed.

(** X7: verification is idempotent: with the same file system, a second
    [verify_all_files] changes nothing. *)
Theorem verify_all_files_idempotent (path_exists : string -> bool) (c : Conn) :
  NoDup (map file_id (files (working c))) ->
  working (FileManager.verify_all_files path_exists
             (FileManager.verify_all_files path_exists c))
  = working (FileManager.verify_all_files path_exists c).
Proof.
  intros Hnd.
  assert (Hids : map file_id (files (working (FileManager.verify_all_files path_exists c)))
                 = map file_id (files (working c))).
  { rewrite verify_all_files_working by exact Hnd. simpl. rewrite map_map.
    apply map_ext. intros r. unfold repaired. now destruct (_ && _). }
  rewrite (verify_all_files_working path_exists (FileManager.verify_all_files path_exists c))
    by now rewrite Hids.
  rewrite (verify_all_files_working path_exists c Hnd). unfold set_files. simpl.
  f_equal. rewrite map_map. apply map_ext. intros r. apply repaired_twice.
Qed.

Lemma verify_all_files_idempotent_witness :
  let path_exists := fun p => String.eqb p "docs/a.txt" in
  let c := snd (FileManager.add_file "/gone/b.txt" "kept"
                  (snd (FileManager.add_file "docs//a.txt" "note" fresh))) in
  NoDup (map file_id (files (working c)))
  /\ working (FileManager.verify_all_files path_exists
                (FileManager.verify_all_files path_exists c))
     = working (FileManager.verify_all_files path_exists c).
Proof.
  intros path_exists c.
  assert (Hnd : NoDup (map file_id (files (working c)))).
  { simpl. repeat constructor; simpl; intuition discriminate. }
  split; [exact Hnd|]. exact (verify_all_files_idempotent path_exists c Hnd).
Defined.

(** ** The action log, continued *)

(** X8: the log is append-only.  Between calls nothing is pending, and each
    call of the Catalog or of the Tag Store leaves every earlier log row in
    place and adds at most one row after them. *)
Theorem log_is_append_only (op : Op) (c : Conn) :
  reachable c ->
  exists l, logs (working (run op c)) = (logs (working c) ++ l)%list
            /\ (List.length l <= 1)%nat.
Proof.
  intros H. apply reachable_settled in H as [_ He].
  exact (proj2 (proj2 (run_keeps_order op c He))).
Qed.

Lemma log_is_append_only_witness :
  let c := run_all [OpAddFile "/a/x.txt" ""; OpCreateTag true "auto" "string"] fresh in
  reachable c
  /\ exists l, logs (working (run (OpAssignTagToFile false 1 1 None) c))
               = (logs (working c) ++ l)%list
               /\ (List.length l <= 1)%nat.
Proof.
  intros c.
  assert (Hr : reachable c) by (repeat apply reachable_run; exact reachable_fresh).
  split; [exact Hr|]. exact (log_is_append_only (OpAssignTagToFile false 1 1 None) c Hr).
Defined.

(** ** Paths that verification can change *)

Lemma double_sep_app_l (a b : string) :
  double_sep (a ++ b) = false -> double_sep a = false.
Proof.
  induction a as [|x r IH]; [reflexivity|].
  simpl. intros H. apply orb_false_elim in H as [H1 H2].
  rewrite (IH H2), orb_false_r.
  destruct r as [|y r']; [now rewrite andb_false_r|exact H1].
Qed.

Lemma startswith_absent (ch : ascii) (s : string) :
  Str.mem ch s = false -> Str.startswith ch s = false.
Proof.
  destruct s as [|a r]; simpl; [reflexivity|].
  intros H. now apply orb_false_elim in H as [H _].
Qed.

Lemma endswith_not_empty (ch : ascii) (s : string) :
  Str.endswith ch s = true -> Str.is_empty s = false.
Proof. destruct s; [discriminate|reflexivity]. Qed.

Lemma append_assoc_sep (h t : string) (ch : ascii) :
  (h ++ String ch "") ++ t = h ++ String ch t.
Proof. induction h as [|a h IH]; simpl; [reflexivity|now rewrite IH]. Qed.

(** A head that ends with one separator, and not with two, loses exactly
    that separator under [rstrip]. *)
Lemma rstrip_one (head : string) :
  Str.endswith PosixPath.sep head = true ->
  double_sep head = false ->
  Str.all_char PosixPath.sep head = false ->
  exists h, head = h ++ String PosixPath.sep ""
            /\ Str.rstrip PosixPath.sep head = h
            /\ Str.is_empty h = false
            /\ Str.endswith PosixPath.sep h = false.
Proof.
  induction head as [|a r IH]; [discriminate|].
  destruct r as [|b r'].
  - simpl. intros He _ Ha. rewrite He in Ha. discriminate.
  - intros He Hd Ha.
    change (Str.endswith PosixPath.sep (String b r') = true) in He.
    change ((Ascii.eqb a PosixPath.sep && Ascii.eqb b PosixPath.sep)
            || double_sep (String b r') = false) in Hd.
    change (Ascii.eqb a PosixPath.sep && Str.all_char PosixPath.sep (String b r') = false)
      in Ha.
    apply orb_false_elim in Hd as [Hab Hd].
    destruct (Str.all_char PosixPath.sep (String b r')) eqn:Hall.
    + rewrite andb_true_r in Ha.
      simpl in Hall. apply andb_true_iff in Hall as [Hb Hr'].
      simpl in Hd. rewrite Hb in Hd. simpl in Hd.
      apply orb_false_elim in Hd as [Hs _].
      assert (r' = "") as ->.
      { destruct r' as [|x r'']; [reflexivity|].
        simpl in Hr', Hs. apply andb_true_iff in Hr' as [Hx _]. congruence. }
      apply Ascii.eqb_eq in Hb. subst b.
      exists (String a ""). simpl. rewrite Ha. auto.
    + destruct (IH He Hd eq_refl) as (h & Eh & Er & Hn & Hend).
      exists (String a h). split; [simpl; now rewrite <- Eh|].
      split; [|split; [reflexivity|]].
      * change (Str.rstrip PosixPath.sep (String a (String b r')))
          with (match Str.rstrip PosixPath.sep (String b r') with
                | EmptyString =>
                    if Ascii.eqb a PosixPath.sep then EmptyString else String a EmptyString
                | String x y => String a (String x y)
                end).
        rewrite Er. destruct h; [discriminate|reflexivity].
      * destruct h; [discriminate|exact Hend].
Qed.

(** A path without two separators in a row is its own candidate. *)
Lemma candidate_plain (p : string) : double_sep p = false -> candidate p = p.
Proof.
  intros Hd. unfold candidate, PosixPath.dirname, PosixPath.basename, Str.rfind.
  destruct (Str.mem PosixPath.sep p) eqn:Hm.
  - destruct (rfind_from_present _ _ Hm 0 (-1)) as (k & Hk & Htail & Hend).
    rewrite Hk. replace (Z.to_nat (0 + Z.of_nat k + 1)) with (S k) by lia.
    pose proof (take_drop (S k) p) as Hp.
    set (head := Str.take (S k) p) in *. set (tail := Str.drop (S k) p) in *.
    assert (Hdh : double_sep head = false)
      by (apply (double_sep_app_l head tail); now rewrite Hp).
    rewrite (endswith_not_empty _ _ Hend). simpl.
    unfold PosixPath.join. rewrite (startswith_absent _ _ Htail).
    destruct (Str.all_char PosixPath.sep head) eqn:Hall; simpl.
    + rewrite Hend, orb_true_r. exact Hp.
    + destruct (rstrip_one head Hend Hdh Hall) as (h & Eh & Er & Hn & He).
      rewrite Er, Hn, He. simpl. rewrite <- Hp, Eh. symmetry. apply append_assoc_sep.
  - rewrite rfind_from_absent by exact Hm. simpl.
    unfold PosixPath.join. rewrite (startswith_absent _ _ Hm). simpl.
    now destruct p.
Qed.

(** X9: verification can only change a path that holds two separators in a
    row.  In a store whose recorded paths hold none, [verify_all_files]
    changes nothing, whatever exists on disk. *)
Theorem verify_all_files_leaves_plain_paths (path_exists : string -> bool) (c : Conn) :
  NoDup (map file_id (files (working c))) ->
  (forall r, In r (files (working c)) -> double_sep (file_path r) = false) ->
  working (FileManager.verify_all_files path_exists c) = working c.
Proof.
  intros Hnd Hp. rewrite verify_all_files_working by exact Hnd.
  rewrite (map_ext_in _ (fun r => r)); [now rewrite map_id, set_files_same|].
  intros r Hr. unfold repaired. rewrite (candidate_plain _ (Hp r Hr)).
  destruct (_ && _); [now destruct r|reflexivity].
Qed.

Lemma verify_all_files_leaves_plain_paths_witness :
  let c := run_all [OpAddFile "/a/old.txt" ""; OpAddFile "notes.txt" "";
                    OpAddFile "/srv/docs/" "folder"] fresh in
  NoDup (map file_id (files (working c)))
  /\ (forall r, In r (files (working c)) -> double_sep (file_path r) = false)
  /\ working (FileManager.verify_all_files (fun _ => false) c) = working c.
Proof.
  intros c.
  assert (Hnd : NoDup (map file_id (files (working c)))).
  { simpl. repeat constructor; simpl; intuition discriminate. }
  assert (Hp : forall r, In r (files (working c)) -> double_sep (file_path r) = false).
  { intros r [<-|[<-|[<-|[]]]]; reflexivity. }
  split; [exact Hnd|]. split; [exact Hp|].
  exact (verify_all_files_leaves_plain_paths (fun _ => false) c Hnd Hp).
Defined.

(** ** More on the Tag Store *)

(** X10: [create_tag] with a type other than the three the schema allows,
    compared exactly, raises the integrity error and writes nothing: no tag
    row, no log row. *)
Theorem create_tag_rejects_unknown_kind (a : bool) (name ty : string) (c : Conn) :
  ty <> "boolean" -> ty <> "numeric" -> ty <> "string" ->
  TagManager.create_tag a name ty c = (Raised IntegrityError, c).
Proof.
  intros H1 H2 H3. unfold TagManager.create_tag, insert_tag, type_ok.
  apply String.eqb_neq in H1, H2, H3. now rewrite H1, H2, H3.
Qed.

Lemma create_tag_rejects_unknown_kind_witness :
  "String" <> "boolean" /\ "String" <> "numeric" /\ "String" <> "string"
  /\ TagManager.create_tag true "size" "String" fresh = (Raised IntegrityError, fresh).
Proof.
  assert (H1 : "String" <> "boolean") by discriminate.
  assert (H2 : "String" <> "numeric") by discriminate.
  assert (H3 : "String" <> "string") by discriminate.
  split; [exact H1|]. split; [exact H2|]. split; [exact H3|].
  exact (create_tag_rejects_unknown_kind true "size" "String" fresh H1 H2 H3).
Defined.

(** X11: tag names are not deduplicated.  [create_tag] with an allowed type
    always adds a row under an id no tag has, also when tags of that name
    exist already, and leaves the associations alone. *)
Theorem create_tag_always_adds (name ty : string) (c : Conn) :
  type_ok ty = true ->
  let r := TagManager.create_tag true name ty c in
  exists id,
    fst r = Returned id
    /\ ~ In id (map tag_id (tags (working c)))
    /\ tags (working (snd r)) = (tags (working c) ++ [mkTag id name ty])%list
    /\ file_tags (working (snd r)) = file_tags (working c).
Proof.
  intros Hty r. subst r. unfold TagManager.create_tag, insert_tag. rewrite Hty. simpl.
  eexists. split; [reflexivity|]. split; [apply next_rowid_fresh|]. split; reflexivity.
Qed.

Lemma create_tag_always_adds_witness :
  let c := snd (TagManager.create_tag true "file_type" "string" fresh) in
  type_ok "string" = true
  /\ exists id,
       fst (TagManager.create_tag true "file_type" "string" c) = Returned id
       /\ ~ In id (map tag_id (tags (working c)))
       /\ tags (working (snd (TagManager.create_tag true "file_type" "string" c)))
          = (tags (working c) ++ [mkTag id "file_type" "string"])%list
       /\ file_tags (working (snd (TagManager.create_tag true "file_type" "string" c)))
          = file_tags (working c).
Proof.
  intros c. split; [reflexivity|].
  exact (create_tag_always_adds "file_type" "string" c eq_refl).
Defined.

(** X12: get-or-create settles on one tag.  After [_get_or_create_tag] has
    returned an id for a name, a second call for that name returns the same
    id and writes nothing, whatever type it is given and whether or not the
    log would accept a row. *)
Theorem get_or_create_tag_settles (a2 : bool) (name ty ty2 : string) (c : Conn) :
  type_ok ty = true ->
  let r1 := Gui._get_or_create_tag true name ty c in
  let r2 := Gui._get_or_create_tag a2 name ty2 (snd r1) in
  (exists t, fst r1 = Returned (tag_id t)
             /\ In t (tags (working (snd r1)))
             /\ tag_name t = name)
  /\ r2 = r1.
Proof.
  intros Hty r1 r2. subst r2 r1. unfold Gui._get_or_create_tag.
  destruct (filter (fun t => String.eqb (tag_name t) name) (tags (working c)))
    as [|t l] eqn:E.
  - unfold TagManager.create_tag, insert_tag. rewrite Hty. simpl.
    rewrite filter_app, E. simpl. rewrite String.eqb_refl. split; [|reflexivity].
    exists (mkTag (next_rowid (tags_seq (working c)) (map tag_id (tags (working c))))
                  name ty).
    split; [reflexivity|]. split; [|reflexivity].
    apply in_or_app. right. now left.
  - simpl. rewrite E. split; [|reflexivity].
    assert (Hin : In t (filter (fun x => String.eqb (tag_name x) name) (tags (working c))))
      by (rewrite E; now left).
    apply filter_In in Hin as [Hin Hn]. apply String.eqb_eq in Hn.
    exists t. auto.
Qed.

Lemma get_or_create_tag_settles_witness :
  let r1 := Gui._get_or_create_tag true "auto" "string" fresh in
  let r2 := Gui._get_or_create_tag false "auto" "integer" (snd r1) in
  type_ok "string" = true /\ fst r1 = Returned 1 /\ r2 = r1.
Proof.
  intros r1 r2. split; [reflexivity|]. split; [reflexivity|].
  exact (proj2 (get_or_create_tag_settles false "auto" "string" "integer" fresh eq_refl)).
Defined.

Lemma filter_split_length {A} (f : A -> bool) (l : list A) :
  (List.length (filter (fun x => negb (f x)) l) + List.length (filter f l)
   = List.length l)%nat.
Proof.
  induction l as [|a l IH]; simpl; [reflexivity|].
  destruct (f a); simpl; lia.
Qed.

Lemma flat_map_filter_rows {A B} (p : A -> bool) (q : B -> bool)
  (f g : A -> list B) (l : list A) :
  (forall x, p x = true -> f x = g x /\ filter q (g x) = g x) ->
  (forall x, p x = false -> filter q (g x) = []) ->
  flat_map f (filter p l) = filter q (flat_map g l).
Proof.
  intros Hkeep Hdrop. induction l as [|a l IH]; [reflexivity|].
  cbn [filter flat_map]. rewrite (filter_app q (g a) (flat_map g l)), <- IH.
  destruct (p a) eqn:E.
  - destruct (Hkeep a E) as [Hf Hq]. cbn [flat_map]. now rewrite Hf, Hq.
  - now rewrite (Hdrop a E).
Qed.

(** X13: [delete_tag] removes the tag's associations and no others.  For
    every file the tags reported afterwards are those reported before
    without the deleted tag, and the association table shrinks by the
    number of rows that named it. *)
Theorem delete_tag_removes_only_its_associations (id : Z) (c : Conn) :
  let c' := snd (TagManager.delete_tag true id c) in
  (forall fid,
      TagManager.get_tags_for_file fid c'
      = filter (fun row => negb (fst (fst (fst row)) =? id))
               (TagManager.get_tags_for_file fid c))
  /\ (List.length (file_tags (working c'))
      + List.length (filter (fun r => Z.eqb (ft_tag_id r) id) (file_tags (working c)))
      = List.length (file_tags (working c)))%nat
  /\ files (working c') = files (working c).
Proof.
  intros c'. subst c'. unfold TagManager.delete_tag, with_conn. simpl.
  split; [|split; [apply filter_split_length|reflexivity]].
  intros fid. unfold TagManager.get_tags_for_file. simpl.
  apply flat_map_filter_rows.
  - intros t E. apply negb_true_iff in E. split.
    + f_equal. apply filter_within. intros ft H.
      apply andb_true_iff in H as [H _]. apply Z.eqb_eq in H.
      apply negb_true_iff. now rewrite <- H.
    + apply filter_all. intros row Hrow.
      apply in_map_iff in Hrow as (ft & <- & _). simpl. now rewrite E.
  - intros t E. apply negb_false_iff in E. apply filter_none.
    intros row Hrow. apply in_map_iff in Hrow as (ft & <- & _). simpl. now rewrite E.
Qed.

(** X14: [remove_tag_from_file] succeeds whether or not the association
    exists, leaves none for the pair, and leaves the associations of every
    other pair as they were. *)
Theorem remove_tag_from_file_only_that_pair (fid tid : Z) (c : Conn) :
  let r := TagManager.remove_tag_from_file true fid tid c in
  fst r = Returned tt
  /\ associations fid tid (working (snd r)) = []
  /\ (forall fid' tid', fid' <> fid \/ tid' <> tid ->
        associations fid' tid' (working (snd r)) = associations fid' tid' (working c)).
Proof.
  intros r. subst r. unfold TagManager.remove_tag_from_file, with_conn, associations. simpl.
  split; [reflexivity|]. split; [apply filter_negb_same|].
  intros fid' tid' Hne. apply filter_within. intros ft H.
  unfold same_key in *. apply andb_true_iff in H as [H1 H2].
  apply Z.eqb_eq in H1, H2. apply negb_true_iff, andb_false_iff.
  destruct Hne as [Hne|Hne]; [left|right]; apply Z.eqb_neq; congruence.
Qed.

Lemma filter_flat_map_none {A B} (q : B -> bool) (f : A -> list B) (l : list A) :
  (forall x row, In x l -> In row (f x) -> q row = false) ->
  filter q (flat_map f l) = [].
Proof.
  intros H. apply filter_none. intros row Hrow.
  apply in_flat_map in Hrow as (x & Hx & Hrow). exact (H x row Hx Hrow).
Qed.

Lemma file_tags_of_pair_after_replace (fid tid : Z) (v : option string) (l : list FileTagRow) :
  filter (fun ft => (tid =? ft_tag_id ft) && (ft_file_id ft =? fid))
         (filter (fun r => negb (same_key fid tid r)) l ++ [mkFileTag fid tid v])
  = [mkFileTag fid tid v].
Proof.
  rewrite filter_app. simpl. rewrite !Z.eqb_refl. simpl.
  rewrite filter_none; [reflexivity|].
  intros ft Hft. apply filter_In in Hft as [_ Hft]. apply negb_true_iff in Hft.
  unfold same_key in Hft. rewrite (Z.eqb_sym tid), andb_comm. exact Hft.
Qed.

(** X15: what is assigned is what is read back.  In a store whose tag ids
    are unique, after a tag has been assigned to an existing file with a
    value, [get_tags_for_file] reports that tag for the file exactly once,
    with the tag's name and type and with that value. *)
Theorem assign_then_get_tags (fid : Z) (t : TagRow) (v : option string) (c : Conn) :
  NoDup (map tag_id (tags (working c))) ->
  In t (tags (working c)) ->
  has_file fid (working c) = true ->
  let c' := snd (TagManager.assign_tag_to_file true fid (tag_id t) v c) in
  filter (fun row => fst (fst (fst row)) =? tag_id t) (TagManager.get_tags_for_file fid c')
  = [(tag_id t, tag_name t, tag_type t, v)].
Proof.
  intros Hnd Hin Hf c'.
  assert (Ht : has_tag (tag_id t) (working c) = true)
    by (apply has_tag_In; now apply in_map).
  subst c'. unfold TagManager.assign_tag_to_file, with_conn, replace_file_tag.
  rewrite Hf, Ht. simpl. unfold TagManager.get_tags_for_file. simpl.
  destruct (in_split _ _ Hin) as (l1 & l2 & E). rewrite E in Hnd |- *.
  rewrite map_app in Hnd. simpl in Hnd. apply NoDup_remove_2 in Hnd.
  rewrite flat_map_app. cbn [flat_map]. rewrite !filter_app.
  rewrite (filter_flat_map_none _ _ l1), (filter_flat_map_none _ _ l2).
  - rewrite <- filter_app, file_tags_of_pair_after_replace. simpl. now rewrite Z.eqb_refl.
  - intros x row Hx Hrow. apply in_map_iff in Hrow as (ft & <- & _). simpl.
    apply Z.eqb_neq. intros Heq. apply Hnd. apply in_or_app. right.
    rewrite <- Heq. now apply in_map.
  - intros x row Hx Hrow. apply in_map_iff in Hrow as (ft & <- & _). simpl.
    apply Z.eqb_neq. intros Heq. apply Hnd. apply in_or_app. left.
    rewrite <- Heq. now apply in_map.
Qed.

Lemma assign_then_get_tags_witness :
  let c := run_all [OpAddFile "/a/report.pdf" ""; OpCreateTag true "auto" "string";
                    OpCreateTag true "file_type" "string";
                    OpAssignTagToFile true 1 1 (Some "scan")] fresh in
  let t := mkTag 2 "file_type" "string" in
  NoDup (map tag_id (tags (working c)))
  /\ In t (tags (working c))
  /\ has_file 1 (working c) = true
  /\ filter (fun row => fst (fst (fst row)) =? 2)
            (TagManager.get_tags_for_file 1
               (snd (TagManager.assign_tag_to_file true 1 2 (Some "pdf document") c)))
     = [(2, "file_type", "string", Some "pdf document")].
Proof.
  intros c t.
  assert (Hnd : NoDup (map tag_id (tags (working c)))).
  { simpl. repeat constructor; simpl; intuition discriminate. }
  assert (Hin : In t (tags (working c))) by (simpl; auto).
  assert (Hf : has_file 1 (working c) = true) by reflexivity.
  split; [exact Hnd|]. split; [exact Hin|]. split; [exact Hf|].
  exact (assign_then_get_tags 1 t (Some "pdf document") c Hnd Hin Hf).
Defined.

Lemma assign_fold_parents (fid tid : Z) (vs : list (option string)) (c : Conn) :
  has_file fid (working c) = true ->
  has_tag tid (working c) = true ->
  let c' := fold_left (fun c0 x => snd (TagManager.assign_tag_to_file true fid tid x c0)) vs c in
  has_file fid (working c') = true /\ has_tag tid (working c') = true.
Proof.
  revert c; induction vs as [|x vs IH]; intros c Hf Ht; simpl; [now split|].
  destruct (assign_accepted fid tid x c Hf Ht) as (_ & _ & _ & Hfs & Hts).
  apply IH.
  - unfold has_file. now rewrite Hfs.
  - unfold has_tag. now rewrite Hts.
Qed.

(** X16: assignments to one pair overwrite each other.  After any sequence
    of values has been assigned in turn to the same existing file and tag,
    as the content-analysis callers do with the themes they find, the pair
    has exactly one association and it carries the last value. *)
Theorem assign_sequence_keeps_last (fid tid : Z) (vs : list (option string))
  (v : option string) (c : Conn) :
  has_file fid (working c) = true ->
  has_tag tid (working c) = true ->
  let c' := fold_left (fun c0 x => snd (TagManager.assign_tag_to_file true fid tid x c0))
                      (vs ++ [v]) c in
  associations fid tid (working c') = [mkFileTag fid tid v]
  /\ associations fid tid (committed c') = [mkFileTag fid tid v].
Proof.
  intros Hf Ht c'. subst c'. rewrite fold_left_app. simpl.
  destruct (assign_fold_parents fid tid vs c Hf Ht) as [Hf' Ht'].
  destruct (assign_accepted fid tid v _ Hf' Ht') as (_ & Ha & Hc & _).
  split; [exact Ha|]. now rewrite Hc.
Qed.

Lemma assign_sequence_keeps_last_witness :
  let c := run_all [OpAddFile "/a/notes.txt" "";
                    OpCreateTag true "content_analysis" "string"] fresh in
  let c' := fold_left (fun c0 x => snd (TagManager.assign_tag_to_file true 1 1 x c0))
                      ([Some "business"; Some "technical"] ++ [Some "data"]) c in
  has_file 1 (working c) = true
  /\ has_tag 1 (working c) = true
  /\ associations 1 1 (working c') = [mkFileTag 1 1 (Some "data")]
  /\ associations 1 1 (committed c') = [mkFileTag 1 1 (Some "data")].
Proof.
  intros c c'. split; [reflexivity|]. split; [reflexivity|].
  exact (assign_sequence_keeps_last 1 1 [Some "business"; Some "technical"] (Some "data") c
           eq_refl eq_refl).
Defined.

(** X17: an assignment touches one pair only.  Whether [assign_tag_to_file]
    succeeds, fails on a foreign key or is rolled back with its log row,
    the associations of every other pair are what they were. *)
Theorem assign_keeps_other_pairs (a : bool) (fid tid fid' tid' : Z) (v : option string)
  (c : Conn) :
  committed c = working c ->
  fid' <> fid \/ tid' <> tid ->
  associations fid' tid' (working (snd (TagManager.assign_tag_to_file a fid tid v c)))
  = associations fid' tid' (working c).
Proof.
  intros He Hne. unfold TagManager.assign_tag_to_file, with_conn, replace_file_tag.
  destruct (has_file fid (working c) && has_tag tid (working c)); simpl;
    [destruct a; simpl|]; try (now rewrite He).
  unfold associations. simpl. rewrite filter_app. simpl.
  assert (Hnew : same_key fid' tid' (mkFileTag fid tid v) = false).
  { unfold same_key. simpl. apply andb_false_iff.
    destruct Hne as [H|H]; [left|right]; apply Z.eqb_neq; congruence. }
  rewrite Hnew, app_nil_r. apply filter_within. intros ft H.
  unfold same_key in *. apply andb_true_iff in H as [H1 H2].
  apply Z.eqb_eq in H1, H2. apply negb_true_iff, andb_false_iff.
  destruct Hne as [Hn|Hn]; [left|right]; apply Z.eqb_neq; congruence.
Qed.

Lemma assign_keeps_other_pairs_witness :
  let c := run_all [OpAddFile "/a/x.txt" ""; OpAddFile "/a/y.txt" "";
                    OpCreateTag true "auto" "string";
                    OpAssignTagToFile true 1 1 (Some "cat")] fresh in
  committed c = working c
  /\ (1 <> 2 \/ 1 <> 1)
  /\ associations 1 1 (working (snd (TagManager.assign_tag_to_file true 2 1 (Some "dog") c)))
     = [mkFileTag 1 1 (Some "cat")].
Proof.
  intros c.
  assert (He : committed c = working c) by reflexivity.
  assert (Hne : 1 <> 2 \/ 1 <> 1) by (left; lia).
  split; [exact He|]. split; [exact Hne|].
  rewrite (assign_keeps_other_pairs true 2 1 1 1 (Some "dog") c He Hne). reflexivity.
Defined.

(** ** The order of the tag listings *)

Lemma insert_by_permutation {A} (key : A -> string) (x : A) (l : list A) :
  Permutation (insert_by key x l) (x :: l).
Proof.
  induction l as [|y r IH]; simpl; [apply Permutation_refl|].
  destruct (String.leb (key x) (key y)); [apply Permutation_refl|].
  apply perm_trans with (y :: x :: r); [now apply perm_skip|apply perm_swap].
Qed.

Lemma order_by_permutation {A} (key : A -> string) (l : list A) :
  Permutation (order_by key l) l.
Proof.
  induction l as [|x l IH]; simpl; [apply perm_nil|].
  apply perm_trans with (x :: order_by key l);
    [apply insert_by_permutation|now apply perm_skip].
Qed.

Lemma insert_by_head {A} (key : A -> string) (x y : A) (l : list A) :
  HdRel (fun a b => String.leb (key a) (key b) = true) y l ->
  String.leb (key y) (key x) = true ->
  HdRel (fun a b => String.leb (key a) (key b) = true) y (insert_by key x l).
Proof.
  intros Hl Hyx. destruct l as [|z r]; simpl; [now constructor|].
  destruct (String.leb (key x) (key z)); constructor; [exact Hyx|].
  now inversion Hl.
Qed.

Lemma insert_by_sorted {A} (key : A -> string) (x : A) (l : list A) :
  Sorted (fun a b => String.leb (key a) (key b) = true) l ->
  Sorted (fun a b => String.leb (key a) (key b) = true) (insert_by key x l).
Proof.
  induction l as [|y r IH]; simpl; intros Hs; [repeat constructor|].
  destruct (String.leb (key x) (key y)) eqn:E.
  - constructor; [exact Hs|now constructor].
  - inversion Hs as [|? ? Hr Hhd]; subst. constructor; [now apply IH|].
    apply insert_by_head; [exact Hhd|].
    destruct (String.leb_total (key x) (key y)) as [H|H]; [congruence|exact H].
Qed.

Lemma order_by_sorted {A} (key : A -> string) (l : list A) :
  Sorted (fun a b => String.leb (key a) (key b) = true) (order_by key l).
Proof.
  induction l as [|x l IH]; simpl; [constructor|now apply insert_by_sorted].
Qed.

Lemma Sorted_map_key {A B} (g : A -> B) (RA : A -> A -> Prop) (RB : B -> B -> Prop)
  (l : list A) :
  (forall x y, RA x y -> RB (g x) (g y)) ->
  Sorted RA l -> Sorted RB (map g l).
Proof.
  intros H. induction 1 as [|x l Hs IH Hhd]; simpl; constructor; [exact IH|].
  destruct Hhd; simpl; constructor. now apply H.
Qed.

(** X18: [get_all_tags] lists every tag once, as [(id, name, type)], in
    ascending order of the names. *)
Theorem get_all_tags_sorted_by_name (c : Conn) :
  Sorted (fun r1 r2 => String.leb (snd (fst r1)) (snd (fst r2)) = true)
         (TagManager.get_all_tags c)
  /\ Permutation (TagManager.get_all_tags c)
                 (map (fun t => (tag_id t, tag_name t, tag_type t)) (tags (working c))).
Proof.
  unfold TagManager.get_all_tags. split.
  - apply (Sorted_map_key _ (fun a b => String.leb (tag_name a) (tag_name b) = true));
      [auto|apply order_by_sorted].
  - apply Permutation_map, order_by_permutation.
Qed.

(** X19: [get_all_tag_names] lists the names that occur among the tags,
    each once, in ascending order. *)
Theorem get_all_tag_names_distinct_sorted (c : Conn) :
  Sorted (fun a b => String.leb a b = true) (TagManager.get_all_tag_names c)
  /\ NoDup (TagManager.get_all_tag_names c)
  /\ (forall name,
        In name (TagManager.get_all_tag_names c)
        <-> exists t, In t (tags (working c)) /\ tag_name t = name).
Proof.
  unfold TagManager.get_all_tag_names. split; [|split].
  - apply (order_by_sorted (fun name : string => name)).
  - apply (Permutation_NoDup (l := nodup string_dec (map tag_name (tags (working c))))).
    + apply Permutation_sym, order_by_permutation.
    + apply NoDup_nodup.
  - intros name. split.
    + intros H. apply (Permutation_in _ (order_by_permutation _ _)) in H.
      apply nodup_In, in_map_iff in H as (t & E & Ht). now exists t.
    + intros (t & Ht & E).
      apply (Permutation_in _ (Permutation_sym (order_by_permutation _ _))).
      apply nodup_In, in_map_iff. now exists t.
Qed.

(** ** More on searching *)

(** X20: [search_by_tag_value] returns the files that carry a tag of
    exactly that name with exactly that value; an association without a
    value matches no value, and every file returned is also returned by
    [search_by_tag_name] for the name. *)
Theorem search_by_tag_value_exact (name value : string) (c : Conn) (f : FileRow) :
  (In f (SearchEngine.search_by_tag_value name value c)
   <-> In f (files (working c))
       /\ exists ft t,
            In ft (file_tags (working c)) /\ In t (tags (working c))
            /\ ft_file_id ft = file_id f /\ ft_tag_id ft = tag_id t
            /\ tag_name t = name /\ ft_value ft = Some value)
  /\ (In f (SearchEngine.search_by_tag_value name value c) ->
      In f (SearchEngine.search_by_tag_name name c)).
Proof.
  unfold SearchEngine.search_by_tag_value, SearchEngine.search_by_tag_name.
  split; [split|].
  - intros H. apply in_flat_map in H as (f0 & Hf0 & H).
    apply in_flat_map in H as (ft & Hft & H).
    apply in_map_iff in H as (t & <- & Ht).
    apply filter_In in Hft as [Hft Hid]. apply filter_In in Ht as [Ht Hp].
    apply andb_true_iff in Hp as [Hp Hv]. apply andb_true_iff in Hp as [Htid Hn].
    apply Z.eqb_eq in Hid, Htid. apply String.eqb_eq in Hn.
    split; [exact Hf0|]. exists ft, t.
    destruct (ft_value ft) as [x|]; [|discriminate].
    apply String.eqb_eq in Hv. subst x. auto 10.
  - intros (Hf & ft & t & Hft & Ht & Hid & Htid & Hn & Hv).
    apply in_flat_map. exists f. split; [exact Hf|].
    apply in_flat_map. exists ft. split.
    + apply filter_In. split; [exact Hft|]. apply Z.eqb_eq. congruence.
    + apply in_map_iff. exists t. split; [reflexivity|].
      apply filter_In. split; [exact Ht|].
      rewrite Hv, Hn, Htid, Z.eqb_refl, !String.eqb_refl. reflexivity.
  - intros H. apply in_flat_map in H as (f0 & Hf0 & H).
    apply in_flat_map in H as (ft & Hft & H).
    apply in_map_iff in H as (t & <- & Ht).
    apply filter_In in Ht as [Ht Hp]. apply andb_true_iff in Hp as [Hp _].
    apply in_flat_map. exists f0. split; [exact Hf0|].
    apply in_flat_map. exists ft. split; [exact Hft|].
    apply in_map_iff. exists t. split; [reflexivity|].
    apply filter_In. now split.
Qed.

Lemma pattern_literal_prefix (q s : string) :
  String.prefix q s = true -> SearchEngine.pattern_compare (q ++ "%") s = true.
Proof.
  revert s; induction q as [|a q IH]; intros s H.
  - apply pattern_percent_any.
  - destruct s as [|b s]; [discriminate|].
    simpl in H. destruct (ascii_dec a b) as [<-|]; [|discriminate].
    specialize (IH s H).
    destruct (Ascii.eqb a SearchEngine.percent) eqn:E.
    + apply Ascii.eqb_eq in E. subst a.
      change (SearchEngine.pattern_compare (String SearchEngine.percent (q ++ "%"))
                (String SearchEngine.percent s) = true).
      rewrite pattern_percent_unfold, (pattern_percent_unfold _ s), IH.
      now rewrite orb_true_r.
    + simpl. rewrite E, IH, Ascii.eqb_refl. now rewrite orb_true_r.
Qed.

Lemma pattern_of_contains (q s : string) :
  SearchEngine.contains q s = true ->
  SearchEngine.pattern_compare (SearchEngine.pattern q) s = true.
Proof.
  unfold SearchEngine.pattern.
  induction s as [|a s IH]; rewrite pattern_percent_unfold; cbn [SearchEngine.contains];
    intros H; apply orb_true_iff in H as [H|H]; try discriminate.
  - now rewrite pattern_literal_prefix.
  - now rewrite pattern_literal_prefix.
  - rewrite (IH H). apply orb_true_r.
Qed.

(** Whatever characters other than NUL the query holds, a text that
    contains it literally before its first NUL passes the LIKE test. *)
Lemma like_query_of_literal (q s : string) :
  Str.mem Str.nul q = false ->
  literal_match q s = true -> like_query q s = true.
Proof.
  intros Hn H. unfold like_query, SearchEngine.like.
  rewrite (c_string_pattern q Hn). now apply pattern_of_contains.
Qed.

Lemma existsb_weaken {A} (f g : A -> bool) (l : list A) :
  (forall x, f x = true -> g x = true) -> existsb f l = true -> existsb g l = true.
Proof.
  intros H E. apply existsb_exists in E as (x & Hx & E).
  apply existsb_exists. exists x. auto.
Qed.

Lemma file_matches_weaken (sub1 sub2 : string -> string -> bool) (q : string)
  (db : DB) (f : FileRow) :
  (forall s, sub1 q s = true -> sub2 q s = true) ->
  SearchEngine.file_matches sub1 q db f = true ->
  SearchEngine.file_matches sub2 q db f = true.
Proof.
  intros H. unfold SearchEngine.file_matches. rewrite !orb_true_iff.
  intros [[[E|E]|E]|E]; auto.
  right. revert E. apply existsb_weaken. intros ft E.
  apply andb_true_iff in E as [Eid E]. rewrite Eid. simpl.
  apply orb_true_iff in E as [E|E]; apply orb_true_iff.
  - left. unfold SearchEngine.contains_null in *. destruct (ft_value ft); auto.
  - right. revert E. apply existsb_weaken. intros t E.
    apply andb_true_iff in E as [Et E]. rewrite Et. simpl. auto.
Qed.

Lemma search_by_filename_within_limit (q : string) (c : Conn) :
  SearchEngine.too_complex (SearchEngine.pattern q) = false ->
  SearchEngine.search_by_filename q c
  = Returned (filter (fun r => like_query q (file_path r)) (files (working c))).
Proof.
  intros H. unfold SearchEngine.search_by_filename. rewrite H.
  now destruct (files (working c)).
Qed.

Lemma search_by_filename_returned (q : string) (c : Conn) (l : list FileRow) :
  SearchEngine.search_by_filename q c = Returned l ->
  l = filter (fun r => like_query q (file_path r)) (files (working c))
  /\ (l <> [] -> SearchEngine.too_complex (SearchEngine.pattern q) = false).
Proof.
  unfold SearchEngine.search_by_filename.
  destruct (files (working c)) as [|r rs].
  - intros H. injection H as <-. split; [reflexivity|]. now intros [].
  - destruct (SearchEngine.too_complex _); [discriminate|].
    intros H. injection H as <-. now split.
Qed.

(** X21: within what LIKE accepts, the searches miss no literal match.  For
    a query without NUL whose pattern is within the limit of 50000 bytes,
    whatever else it holds, wildcards included, a file whose path contains
    the query before the path's first NUL is returned by
    [search_by_filename], and a file with a column, tag name or tag value
    that does is returned by [search_all]. *)
Theorem search_finds_literal_matches (q : string) (c : Conn) (f : FileRow) :
  In f (files (working c)) ->
  Str.mem Str.nul q = false ->
  SearchEngine.too_complex (SearchEngine.pattern q) = false ->
  (literal_match q (file_path f) = true ->
   exists l, SearchEngine.search_by_filename q c = Returned l /\ In f l)
  /\ (SearchEngine.file_matches literal_match q (working c) f = true ->
      exists rows, SearchEngine.search_all q c = Returned rows
                   /\ In (FileManager.select_row f) rows).
Proof.
  intros Hf Hn Hlim. split.
  - intros H. eexists. split; [now apply search_by_filename_within_limit|].
    apply filter_In. split; [exact Hf|]. now apply like_query_of_literal.
  - intros H. eexists. split; [now apply search_all_within_limit|].
    apply (in_search_all q c _ _ (search_all_within_limit q c Hlim)).
    exists f. split; [exact Hf|]. split; [reflexivity|].
    revert H. apply file_matches_weaken. intros s. now apply like_query_of_literal.
Qed.

Lemma search_finds_literal_matches_witness :
  let c := run_all [OpAddFile "/a/100%_done.txt" ""; OpAddFile "/a/other.txt" ""] fresh in
  let f := mkFile 1 "/a/100%_done.txt" "100%_done.txt" "" in
  In f (files (working c))
  /\ Str.mem Str.nul "0%_d" = false
  /\ SearchEngine.too_complex (SearchEngine.pattern "0%_d") = false
  /\ (exists l, SearchEngine.search_by_filename "0%_d" c = Returned l /\ In f l)
  /\ (exists rows, SearchEngine.search_all "0%_d" c = Returned rows
                   /\ In (FileManager.select_row f) rows).
Proof.
  intros c f.
  assert (Hf : In f (files (working c))) by (simpl; auto).
  destruct (search_finds_literal_matches "0%_d" c f Hf eq_refl eq_refl) as [H1 H2].
  split; [exact Hf|]. split; [reflexivity|]. split; [reflexivity|].
  split; [apply H1|apply H2]; reflexivity.
Defined.

Lemma like_query_empty (s : string) : like_query "" s = true.
Proof.
  unfold like_query, SearchEngine.like.
  change (Str.c_string (SearchEngine.pattern "")) with "%%".
  rewrite pattern_percent_unfold, pattern_percent_any. reflexivity.
Qed.

(** X22: the empty query matches everything: [search_by_filename] returns
    the whole table and [search_all] returns the rows of [list_files]. *)
Theorem search_empty_query_lists_all (c : Conn) :
  SearchEngine.search_by_filename "" c = Returned (files (working c))
  /\ exists rows,
       SearchEngine.search_all "" c = Returned rows
       /\ forall row, In row rows <-> In row (FileManager.list_files c).
Proof.
  split.
  - rewrite search_by_filename_within_limit by reflexivity. f_equal.
    apply filter_all. intros r _. apply like_query_empty.
  - eexists. split; [now apply search_all_within_limit|].
    intros row.
    rewrite (in_search_all "" c _ row (search_all_within_limit "" c eq_refl)).
    unfold FileManager.list_files. rewrite in_map_iff. split.
    + intros (f & Hf & -> & _). now exists f.
    + intros (f & <- & Hf). exists f. split; [exact Hf|]. split; [reflexivity|].
      unfold SearchEngine.file_matches. now rewrite like_query_empty.
Qed.

(** X23: whatever [search_by_filename] returns for a query, [search_all]
    returns for the same query. *)
Theorem search_by_filename_within_search_all (q : string) (c : Conn)
  (l : list FileRow) (f : FileRow) :
  SearchEngine.search_by_filename q c = Returned l ->
  In f l ->
  exists rows, SearchEngine.search_all q c = Returned rows
               /\ In (FileManager.select_row f) rows.
Proof.
  intros Hl Hin. apply search_by_filename_returned in Hl as [-> Hlim].
  assert (Hok : SearchEngine.too_complex (SearchEngine.pattern q) = false).
  { apply Hlim. intros E. rewrite E in Hin. destruct Hin. }
  apply filter_In in Hin as [Hf Hlike].
  eexists. split; [now apply search_all_within_limit|].
  apply (in_search_all q c _ _ (search_all_within_limit q c Hok)).
  exists f. split; [exact Hf|]. split; [reflexivity|].
  unfold SearchEngine.file_matches. now rewrite Hlike.
Qed.

Lemma search_by_filename_within_search_all_witness :
  let c := run_all [OpAddFile "/a/report.pdf" "q3"; OpAddFile "/b/memo.txt" "report"] fresh in
  let f := mkFile 1 "/a/report.pdf" "report.pdf" "q3" in
  SearchEngine.search_by_filename "rep_rt" c = Returned [f]
  /\ In f [f]
  /\ exists rows, SearchEngine.search_all "rep_rt" c = Returned rows
                  /\ In (FileManager.select_row f) rows.
Proof.
  intros c f.
  assert (H : SearchEngine.search_by_filename "rep_rt" c = Returned [f]) by reflexivity.
  assert (Hin : In f [f]) by now left.
  split; [exact H|]. split; [exact Hin|].
  exact (search_by_filename_within_search_all "rep_rt" c [f] f H Hin).
Defined.

(** ** Letter case in the searches *)

Lemma lower_twice (a : ascii) : SearchEngine.lower (SearchEngine.lower a) = SearchEngine.lower a.
Proof. destruct a as [[] [] [] [] [] [] [] []]; reflexivity. Qed.

Lemma lower_percent (a : ascii) :
  Ascii.eqb (SearchEngine.lower a) SearchEngine.percent = Ascii.eqb a SearchEngine.percent.
Proof. destruct a as [[] [] [] [] [] [] [] []]; reflexivity. Qed.

Lemma lower_underscore (a : ascii) :
  Ascii.eqb (SearchEngine.lower a) SearchEngine.underscore
  = Ascii.eqb a SearchEngine.underscore.
Proof. destruct a as [[] [] [] [] [] [] [] []]; reflexivity. Qed.

Lemma lower_nul (a : ascii) :
  Ascii.eqb (SearchEngine.lower a) Str.nul = Ascii.eqb a Str.nul.
Proof. destruct a as [[] [] [] [] [] [] [] []]; reflexivity. Qed.

Lemma lower_width (a : ascii) :
  (N_of_ascii (SearchEngine.lower a) <? 128)%N = (N_of_ascii a <? 128)%N.
Proof. destruct a as [[] [] [] [] [] [] [] []]; reflexivity. Qed.

Lemma pattern_fold_pattern (pat s : string) :
  SearchEngine.pattern_compare (fold_case pat) s = SearchEngine.pattern_compare pat s.
Proof.
  revert s; induction pat as [|p pat IH]; intros s; [reflexivity|].
  cbn [fold_case]. destruct (Ascii.eqb p SearchEngine.percent) eqn:Ep.
  - apply Ascii.eqb_eq in Ep. subst p.
    change (SearchEngine.lower SearchEngine.percent) with SearchEngine.percent.
    induction s as [|a s IHs];
      rewrite (pattern_percent_unfold (fold_case pat)), (pattern_percent_unfold pat), IH.
    + reflexivity.
    + now rewrite IHs.
  - rewrite pattern_literal_unfold by (now rewrite lower_percent).
    rewrite (pattern_literal_unfold p) by exact Ep.
    destruct s as [|a s]; [reflexivity|].
    now rewrite lower_underscore, lower_twice, IH.
Qed.

Lemma pattern_fold_text (pat s : string) :
  SearchEngine.pattern_compare pat (fold_case s) = SearchEngine.pattern_compare pat s.
Proof.
  revert s; induction pat as [|p pat IH]; intros s; [now destruct s|].
  destruct (Ascii.eqb p SearchEngine.percent) eqn:Ep.
  - apply Ascii.eqb_eq in Ep. subst p.
    induction s as [|a s IHs].
    + reflexivity.
    + rewrite (pattern_percent_unfold pat (String a s)).
      cbn [fold_case]. rewrite pattern_percent_unfold.
      change (String (SearchEngine.lower a) (fold_case s)) with (fold_case (String a s)).
      now rewrite IH, IHs.
  - rewrite !pattern_literal_unfold by exact Ep.
    destruct s as [|a s]; [reflexivity|].
    cbn [fold_case]. now rewrite lower_twice, IH.
Qed.

Lemma c_string_fold (s : string) : Str.c_string (fold_case s) = fold_case (Str.c_string s).
Proof.
  induction s as [|a s IH]; [reflexivity|].
  cbn [fold_case Str.c_string]. rewrite lower_nul.
  destruct (Ascii.eqb a Str.nul); [reflexivity|]. cbn [fold_case]. now rewrite IH.
Qed.

Lemma utf8_length_fold (s : string) : Str.utf8_length (fold_case s) = Str.utf8_length s.
Proof.
  induction s as [|a s IH]; [reflexivity|].
  cbn [fold_case Str.utf8_length]. now rewrite lower_width, IH.
Qed.

Lemma fold_case_pattern (q : string) :
  SearchEngine.pattern (fold_case q) = fold_case (SearchEngine.pattern q).
Proof.
  unfold SearchEngine.pattern. cbn [fold_case].
  change (SearchEngine.lower SearchEngine.percent) with SearchEngine.percent.
  f_equal. induction q as [|a q IH]; [reflexivity|].
  cbn [fold_case String.append]. now rewrite IH.
Qed.

Lemma like_query_fold (q s : string) : like_query (fold_case q) s = like_query q s.
Proof.
  unfold like_query, SearchEngine.like.
  now rewrite fold_case_pattern, c_string_fold, pattern_fold_pattern.
Qed.

Lemma too_complex_fold (q : string) :
  SearchEngine.too_complex (SearchEngine.pattern (fold_case q))
  = SearchEngine.too_complex (SearchEngine.pattern q).
Proof.
  unfold SearchEngine.too_complex. now rewrite fold_case_pattern, utf8_length_fold.
Qed.

(** X24: the searches ignore the case of ASCII letters, in the query and in
    the stored text alike: folding the query to lower case changes the
    result of neither [search_by_filename] nor [search_all], and a text
    passes the LIKE test exactly when its folded form does. *)
Theorem search_ignores_letter_case (q : string) (c : Conn) :
  SearchEngine.search_by_filename (fold_case q) c = SearchEngine.search_by_filename q c
  /\ SearchEngine.search_all (fold_case q) c = SearchEngine.search_all q c
  /\ (forall s, like_query q (fold_case s) = like_query q s).
Proof.
  split; [|split].
  - unfold SearchEngine.search_by_filename. rewrite too_complex_fold.
    destruct (files (working c)) as [|r rs]; [reflexivity|].
    destruct (SearchEngine.too_complex _); [reflexivity|]. f_equal.
    apply filter_ext. intros x. apply like_query_fold.
  - unfold SearchEngine.search_all. rewrite too_complex_fold.
    destruct (SearchEngine.joined (working c)) as [|j js]; [reflexivity|].
    destruct (SearchEngine.too_complex _); [reflexivity|]. do 3 f_equal.
    apply filter_ext.
    intros [[f ft] t]. unfold SearchEngine.where_all, SearchEngine.like_null.
    pose proof (like_query_fold q) as H. unfold like_query in H.
    rewrite !H.
    destruct (option_map tag_name t), (match ft with Some r => ft_value r | None => None end);
      now rewrite ?H.
  - intros s. unfold like_query, SearchEngine.like.
    now rewrite c_string_fold, pattern_fold_text.
Qed.

(** ** The watched directories *)

Lemma set_add_In (x d : string) (s : list string) :
  In d (FileManager.set_add x s) <-> d = x \/ In d s.
Proof.
  unfold FileManager.set_add. destruct (existsb (String.eqb x) s) eqn:E.
  - split; [auto|]. intros [->|H]; [|exact H].
    apply existsb_exists in E as (y & Hy & E). apply String.eqb_eq in E. now subst y.
  - rewrite in_app_iff. simpl. split.
    + intros [H|[H|[]]]; auto.
    + intros [H|H]; auto.
Qed.

Lemma set_add_NoDup (x : string) (s : list string) :
  NoDup s -> NoDup (FileManager.set_add x s).
Proof.
  intros H. unfold FileManager.set_add. destruct (existsb (String.eqb x) s) eqn:E;
    [exact H|].
  apply NoDup_snoc; [exact H|]. intros Hin.
  assert (existsb (String.eqb x) s = true); [|congruence].
  apply existsb_exists. exists x. split; [exact Hin|apply String.eqb_refl].
Qed.

Lemma watched_fold (e : string -> bool) (paths acc : list string) :
  let step := fun directories path =>
                let dir_path := PosixPath.dirname path in
                if negb (Str.is_empty dir_path) && e dir_path
                then FileManager.set_add dir_path directories
                else directories in
  (NoDup acc -> NoDup (fold_left step paths acc))
  /\ forall d, In d (fold_left step paths acc)
               <-> In d acc
                   \/ exists p, In p paths /\ PosixPath.dirname p = d
                                /\ Str.is_empty d = false /\ e d = true.
Proof.
  intros step. revert acc. induction paths as [|p paths IH]; intros acc; simpl.
  - split; [auto|]. intros d. split; [auto|]. intros [H|(p & [] & _)]. exact H.
  - destruct (IH (step acc p)) as [IHn IHi]. split.
    + intros H. apply IHn. unfold step. destruct (_ && _); [now apply set_add_NoDup|exact H].
    + intros d. rewrite IHi. unfold step at 1.
      destruct (negb (Str.is_empty (PosixPath.dirname p)) && e (PosixPath.dirname p)) eqn:E.
      * apply andb_true_iff in E as [E1 E2]. apply negb_true_iff in E1.
        rewrite set_add_In. split.
        -- intros [[->|H]|(p' & Hp' & H)]; auto.
           ++ right. exists p. auto.
           ++ right. exists p'. auto.
        -- intros [H|(p' & [<-|Hp'] & H)]; auto.
           ++ left. left. symmetry. tauto.
           ++ right. exists p'. auto.
      * split.
        -- intros [H|(p' & Hp' & H)]; auto. right. exists p'. auto.
        -- intros [H|(p' & [<-|Hp'] & Hd & H1 & H2)]; auto.
           ++ subst d. rewrite H1, H2 in E. discriminate.
           ++ right. exists p'. auto.
Qed.

(** X25: [_get_watched_directories] returns, without repetition, exactly
    the directories that are the directory part of some recorded path, are
    not empty and exist; a record whose path has no directory part adds
    none. *)
Theorem watched_directories_exact (path_exists : string -> bool) (c : Conn) :
  NoDup (FileManager._get_watched_directories path_exists c)
  /\ forall d,
       In d (FileManager._get_watched_directories path_exists c)
       <-> d <> "" /\ path_exists d = true
           /\ exists r, In r (files (working c)) /\ PosixPath.dirname (file_path r) = d.
Proof.
  unfold FileManager._get_watched_directories.
  destruct (watched_fold path_exists
              (nodup string_dec (map file_path (files (working c)))) []) as [Hn Hi].
  split; [apply Hn; constructor|].
  intros d. rewrite Hi. split.
  - intros [[]|(p & Hp & Hd & He & Hx)].
    apply nodup_In, in_map_iff in Hp as (r & <- & Hr).
    split; [intros ->; discriminate|]. split; [exact Hx|]. now exists r.
  - intros (Hne & Hx & r & Hr & Hd). right. exists (file_path r).
    split; [apply nodup_In; now apply in_map|]. split; [exact Hd|].
    split; [now destruct d|exact Hx].
Qed.

(** ** The configuration file *)

Lemma append_assoc_string (a b c : string) : (a ++ b) ++ c = a ++ (b ++ c).
Proof. induction a as [|x a IH]; simpl; [reflexivity|now rewrite IH]. Qed.

Lemma file_lines_first (l rest : string) :
  one_line l ->
  Str.file_lines (l ++ String Str.line_feed rest) = l :: Str.file_lines rest.
Proof.
  intros [Hlf Hcr]. induction l as [|a l IH]; [reflexivity|].
  simpl in Hlf, Hcr.
  apply orb_false_elim in Hlf as [Ha Hlf]. apply orb_false_elim in Hcr as [Hb Hcr].
  cbn [String.append Str.file_lines]. rewrite Ha, Hb, (IH Hlf Hcr). reflexivity.
Qed.

Lemma lstrip_length (s : string) :
  (String.length (Str.lstrip_space s) <= String.length s)%nat.
Proof.
  induction s as [|a r IH]; simpl; [lia|]. destruct (Str.is_space a); simpl; lia.
Qed.

Lemma rstrip_fixed_or_shorter (s : string) :
  Str.rstrip_space s = s
  \/ (String.length (Str.rstrip_space s) < String.length s)%nat.
Proof.
  induction s as [|a r IH]; [now left|].
  cbn [Str.rstrip_space]. destruct (Str.rstrip_space r) as [|x y] eqn:E.
  - destruct (Str.is_space a); [right; simpl; lia|].
    destruct IH as [IH|IH]; [left; now rewrite <- IH|right; simpl in *; lia].
  - destruct IH as [IH|IH]; [left; now rewrite IH|right; simpl in *; lia].
Qed.

Lemma strip_fixed (s : string) :
  Str.strip s = s -> Str.rstrip_space s = s /\ Str.lstrip_space s = s.
Proof.
  unfold Str.strip. intros H.
  pose proof (lstrip_length (Str.rstrip_space s)) as H1.
  rewrite H in H1.
  destruct (rstrip_fixed_or_shorter s) as [E|E]; [|lia].
  split; [exact E|]. now rewrite E in H.
Qed.

Lemma lstrip_fixed_head (a : ascii) (r : string) :
  Str.lstrip_space (String a r) = String a r -> Str.is_space a = false.
Proof.
  simpl. destruct (Str.is_space a); [|reflexivity].
  intros H. pose proof (lstrip_length r) as Hl. rewrite H in Hl. simpl in Hl. lia.
Qed.

Lemma rstrip_app (a b : string) :
  Str.rstrip_space b <> "" ->
  Str.rstrip_space (a ++ b) = a ++ Str.rstrip_space b.
Proof.
  intros Hb. induction a as [|x a IH]; [reflexivity|].
  cbn [String.append Str.rstrip_space]. rewrite IH.
  destruct (a ++ Str.rstrip_space b) as [|y z] eqn:E; [|reflexivity].
  destruct a; simpl in E; [contradiction|discriminate].
Qed.

(** A line [key=value] written by [save_config] is read as it was written. *)
Lemma strip_entry (k v : string) :
  Str.strip k = k -> Str.strip v = v ->
  Str.strip (k ++ String "="%char v) = k ++ String "="%char v.
Proof.
  intros Hk Hv. apply strip_fixed in Hk as [_ Hk]. apply strip_fixed in Hv as [Hv _].
  assert (Hr : Str.rstrip_space (String "="%char v) = String "="%char v).
  { cbn [Str.rstrip_space]. rewrite Hv. now destruct v. }
  unfold Str.strip. rewrite rstrip_app by (rewrite Hr; discriminate). rewrite Hr.
  destruct k as [|a k]; [reflexivity|].
  apply lstrip_fixed_head in Hk. simpl. now rewrite Hk.
Qed.

Lemma split_once_entry (k v : string) :
  Str.mem "="%char k = false ->
  Config.split_once (k ++ String "="%char v) = Some (k, v).
Proof.
  induction k as [|a k IH]; intros H; [reflexivity|].
  simpl in H. apply orb_false_elim in H as [Ha H].
  cbn [String.append Config.split_once]. now rewrite Ha, (IH H).
Qed.

Lemma load_line_entry (k v : string) (config : Config.Dict) :
  storable_key k -> storable_value v ->
  Config.load_line config (k ++ String "="%char v)
  = Config.Config (Config.dict_set k v config).
Proof.
  intros (Hk & _ & Heq & Hhash) (Hv & _).
  unfold Config.load_line. rewrite (strip_entry k v Hk Hv).
  assert (Hskip : Str.is_empty (k ++ String "="%char v)
                  || Str.startswith "#"%char (k ++ String "="%char v) = false).
  { destruct k as [|a k]; [reflexivity|]. exact Hhash. }
  rewrite Hskip, (split_once_entry k v Heq), Hk, Hv. reflexivity.
Qed.

Lemma dict_set_new (k v : string) (config : Config.Dict) :
  ~ In k (map fst config) ->
  Config.dict_set k v config = (config ++ [(k, v)])%list.
Proof.
  induction config as [|[k' v'] rest IH]; simpl; intros H; [reflexivity|].
  destruct (String.eqb k' k) eqn:E.
  - apply String.eqb_eq in E. exfalso. apply H. now left.
  - f_equal. apply IH. tauto.
Qed.

Lemma load_saved (config acc : Config.Dict) :
  NoDup (map fst (acc ++ config)) ->
  (forall k v, In (k, v) config -> storable_key k /\ storable_value v) ->
  Config.load_lines acc (Str.file_lines (Config.save_config config))
  = Config.Config (acc ++ config)%list.
Proof.
  revert acc; induction config as [|[k v] rest IH]; intros acc Hnd Hok.
  - simpl. now rewrite app_nil_r.
  - destruct (Hok k v (or_introl eq_refl)) as [Hk Hv].
    cbn [Config.save_config].
    replace (k ++ String "="%char (v ++ String Str.line_feed (Config.save_config rest)))
      with ((k ++ String "="%char v) ++ String Str.line_feed (Config.save_config rest))
      by (rewrite append_assoc_string; reflexivity).
    rewrite file_lines_first.
    + cbn [Config.load_lines]. rewrite (load_line_entry k v acc Hk Hv).
      rewrite dict_set_new.
      * rewrite IH.
        -- now rewrite <- app_assoc.
        -- now rewrite <- app_assoc.
        -- intros k' v' H. apply Hok. now right.
      * rewrite map_app in Hnd. simpl in Hnd. apply NoDup_remove_2 in Hnd.
        intros H. apply Hnd. apply in_or_app. now left.
    + destruct Hk as (_ & [Hk1 Hk2] & _). destruct Hv as (_ & [Hv1 Hv2]).
      split; rewrite mem_app; simpl; [rewrite Hk1, Hv1|rewrite Hk2, Hv2]; reflexivity.
Qed.

(** X26: saving and loading the configuration is a round trip.  A
    dictionary with distinct keys whose keys and values are storable (one
    line, no white space at the ends, no [=] in a key and no [#] at its
    start) is read back from the text [save_config] writes exactly as it
    was, order included. *)
Theorem config_round_trip (config : Config.Dict) :
  NoDup (map fst config) ->
  (forall k v, In (k, v) config -> storable_key k /\ storable_value v) ->
  Config.load_config (Some (Config.save_config config)) = Config.Config config.
Proof.
  intros Hnd Hok. unfold Config.load_config. exact (load_saved config [] Hnd Hok).
Qed.

Lemma config_round_trip_witness :
  let config := [("theme", "dark"); ("db path", "/srv/library.db"); ("filter", "a=b # c")] in
  NoDup (map fst config)
  /\ (forall k v, In (k, v) config -> storable_key k /\ storable_value v)
  /\ Config.load_config (Some (Config.save_config config)) = Config.Config config.
Proof.
  intros config.
  assert (Hnd : NoDup (map fst config)).
  { simpl. repeat constructor; simpl; intuition discriminate. }
  assert (Hok : forall k v, In (k, v) config -> storable_key k /\ storable_value v).
  { intros k v [E|[E|[E|[]]]]; injection E as <- <-;
      unfold storable_key, storable_value, one_line; repeat split. }
  split; [exact Hnd|]. split; [exact Hok|].
  exact (config_round_trip config Hnd Hok).
Defined.

Lemma split_once_none (s : string) :
  Str.mem "="%char s = false -> Config.split_once s = None.
Proof.
  induction s as [|a r IH]; simpl; intros H; [reflexivity|].
  apply orb_false_elim in H as [Ha H]. now rewrite Ha, (IH H).
Qed.

Lemma mem_lstrip (ch : ascii) (s : string) :
  Str.mem ch s = false -> Str.mem ch (Str.lstrip_space s) = false.
Proof.
  induction s as [|a r IH]; simpl; intros H; [reflexivity|].
  destruct (Str.is_space a); [|exact H].
  apply orb_false_elim in H as [_ H]. now apply IH.
Qed.

Lemma mem_rstrip (ch : ascii) (s : string) :
  Str.mem ch s = false -> Str.mem ch (Str.rstrip_space s) = false.
Proof.
  induction s as [|a r IH]; intros H; [reflexivity|].
  simpl in H. apply orb_false_elim in H as [Ha H]. specialize (IH H).
  cbn [Str.rstrip_space]. destruct (Str.rstrip_space r) as [|x y].
  - destruct (Str.is_space a); simpl; [reflexivity|now rewrite Ha].
  - change (Ascii.eqb a ch || Str.mem ch (String x y) = false). now rewrite Ha, IH.
Qed.

Lemma load_line_without_equals (config : Config.Dict) (raw : string) :
  Str.strip raw <> "" ->
  Str.startswith "#"%char (Str.strip raw) = false ->
  Str.mem "="%char raw = false ->
  Config.load_line config raw = Config.ValueError.
Proof.
  intros Hne Hhash Heq. unfold Config.load_line.
  assert (He : Str.is_empty (Str.strip raw) = false)
    by (destruct (Str.strip raw); [contradiction|reflexivity]).
  rewrite He, Hhash. cbn [orb].
  rewrite split_once_none; [reflexivity|].
  unfold Str.strip. now apply mem_lstrip, mem_rstrip.
Qed.

(** X27: one line that is neither blank nor a comment and holds no [=]
    makes [load_config] raise, wherever in the file it stands. *)
Theorem load_config_rejects_line_without_equals (text raw : string) :
  In raw (Str.file_lines text) ->
  Str.strip raw <> "" ->
  Str.startswith "#"%char (Str.strip raw) = false ->
  Str.mem "="%char raw = false ->
  Config.load_config (Some text) = Config.ValueError.
Proof.
  intros Hin Hne Hhash Heq. unfold Config.load_config.
  generalize (@nil (string * string)) as acc.
  induction (Str.file_lines text) as [|l ls IH]; intros acc; [destruct Hin|].
  cbn [Config.load_lines]. destruct Hin as [->|Hin].
  - now rewrite load_line_without_equals.
  - destruct (Config.load_line acc l); [now apply IH|reflexivity].
Qed.

Lemma load_config_rejects_line_without_equals_witness :
  let text := "theme=dark" ++ String Str.line_feed ("verbose" ++ String Str.line_feed "x=1") in
  In "verbose" (Str.file_lines text)
  /\ Config.load_config (Some text) = Config.ValueError.
Proof.
  intros text.
  assert (Hin : In "verbose" (Str.file_lines text)) by (simpl; auto).
  split; [exact Hin|].
  apply (load_config_rejects_line_without_equals text "verbose" Hin);
    [discriminate|reflexivity|reflexivity].
Defined.

Lemma dict_set_keys (k v x : string) (config : Config.Dict) :
  In x (map fst (Config.dict_set k v config)) -> x = k \/ In x (map fst config).
Proof.
  induction config as [|[k' v'] rest IH]; simpl.
  - intros [H|[]]. now left.
  - destruct (String.eqb k' k); simpl.
    + intros [H|H]; auto.
    + intros [H|H]; auto. destruct (IH H); auto.
Qed.

Lemma dict_set_NoDup (k v : string) (config : Config.Dict) :
  NoDup (map fst config) -> NoDup (map fst (Config.dict_set k v config)).
Proof.
  induction config as [|[k' v'] rest IH]; simpl; intros H.
  - constructor; [tauto|constructor].
  - inversion H as [|? ? Hk Hrest]; subst.
    destruct (String.eqb k' k) eqn:E; simpl; [now constructor|].
    constructor; [|now apply IH].
    intros Hin. apply dict_set_keys in Hin as [->|Hin]; [|contradiction].
    rewrite String.eqb_refl in E. discriminate.
Qed.

Lemma load_lines_NoDup (lines : list string) (acc config : Config.Dict) :
  NoDup (map fst acc) ->
  Config.load_lines acc lines = Config.Config config ->
  NoDup (map fst config).
Proof.
  revert acc; induction lines as [|l ls IH]; intros acc Hnd H.
  - simpl in H. injection H as <-. exact Hnd.
  - cbn [Config.load_lines] in H.
    destruct (Config.load_line acc l) as [acc'|] eqn:E; [|discriminate].
    apply (IH acc'); [|exact H].
    unfold Config.load_line in E.
    destruct (_ || _); [injection E as <-; exact Hnd|].
    destruct (Config.split_once _) as [[k v]|]; [|discriminate].
    injection E as <-. now apply dict_set_NoDup.
Qed.

Lemma dict_get_set (key k v : string) (config : Config.Dict) :
  dict_get key (Config.dict_set k v config)
  = if String.eqb k key then Some v else dict_get key config.
Proof.
  unfold dict_get. induction config as [|[k' v'] rest IH]; cbn [Config.dict_set find].
  - cbn [fst]. now destruct (String.eqb k key).
  - destruct (String.eqb k' k) eqn:E; cbn [find fst].
    + apply String.eqb_eq in E. subst k'. now destruct (String.eqb k key).
    + destruct (String.eqb k' key) eqn:E'; [|exact IH].
      apply String.eqb_eq in E'. subst k'. now rewrite String.eqb_sym, E.
Qed.

Lemma dict_set_key_list (k v : string) (config : Config.Dict) :
  map fst (Config.dict_set k v config)
  = if existsb (String.eqb k) (map fst config)
    then map fst config else (map fst config ++ [k])%list.
Proof.
  induction config as [|[k' v'] rest IH]; [reflexivity|].
  cbn [Config.dict_set map fst existsb]. rewrite (String.eqb_sym k k').
  destruct (String.eqb k' k); [reflexivity|].
  cbn [map fst orb]. rewrite IH. now destruct (existsb _ _).
Qed.

(** A line that [load_config] accepts leaves the dictionary as it is or
    sets the one entry of the line. *)
Lemma load_line_setting (acc acc' : Config.Dict) (raw : string) :
  Config.load_line acc raw = Config.Config acc' ->
  (setting raw = [] /\ acc' = acc)
  \/ exists k v, setting raw = [(k, v)] /\ acc' = Config.dict_set k v acc.
Proof.
  unfold setting, Config.load_line.
  destruct (_ || _).
  - intros H. injection H as <-. now left.
  - destruct (Config.split_once _) as [[k v]|]; [|discriminate].
    intros H. injection H as <-. right. now exists (Str.strip k), (Str.strip v).
Qed.

Lemma load_lines_values (lines : list string) (acc config : Config.Dict) (key : string) :
  Config.load_lines acc lines = Config.Config config ->
  dict_get key config
  = match last_value key (flat_map setting lines) with
    | Some x => Some x
    | None => dict_get key acc
    end.
Proof.
  revert acc; induction lines as [|l ls IH]; intros acc H.
  - simpl in H. injection H as <-. reflexivity.
  - cbn [Config.load_lines] in H.
    destruct (Config.load_line acc l) as [acc'|] eqn:E; [|discriminate].
    rewrite (IH acc' H). cbn [flat_map].
    destruct (load_line_setting _ _ _ E) as [[-> ->]|(k & v & -> & ->)]; [reflexivity|].
    cbn [app last_value]. rewrite dict_get_set.
    destruct (last_value key (flat_map setting ls)); [reflexivity|].
    now destruct (String.eqb k key).
Qed.

Lemma load_lines_keys (lines : list string) (acc config : Config.Dict) :
  Config.load_lines acc lines = Config.Config config ->
  map fst config
  = (map fst acc ++ first_keys (map fst acc) (map fst (flat_map setting lines)))%list.
Proof.
  revert acc; induction lines as [|l ls IH]; intros acc H.
  - simpl in H. injection H as <-. simpl. now rewrite app_nil_r.
  - cbn [Config.load_lines] in H.
    destruct (Config.load_line acc l) as [acc'|] eqn:E; [|discriminate].
    rewrite (IH acc' H). cbn [flat_map].
    destruct (load_line_setting _ _ _ E) as [[-> ->]|(k & v & -> & ->)]; [reflexivity|].
    cbn [app map fst first_keys]. rewrite dict_set_key_list.
    destruct (existsb (String.eqb k) (map fst acc)); [reflexivity|].
    now rewrite <- app_assoc.
Qed.

(** X28: whatever the file holds, a configuration that [load_config]
    returns has no key twice, holds under each key the value of the last
    line that sets it, and keeps the keys in the order in which the file
    first sets them: a key met again takes the later value in the place of
    the earlier one. *)
Theorem load_config_later_value_wins (file : option string) (config : Config.Dict) :
  Config.load_config file = Config.Config config ->
  let entries :=
    flat_map setting (match file with Some text => Str.file_lines text | None => [] end) in
  NoDup (map fst config)
  /\ (forall key, dict_get key config = last_value key entries)
  /\ map fst config = first_keys [] (map fst entries).
Proof.
  intros H. cbv zeta. unfold Config.load_config in H. destruct file as [text|].
  - split; [|split].
    + apply (load_lines_NoDup (Str.file_lines text) [] config); [constructor|exact H].
    + intros key. rewrite (load_lines_values _ _ _ key H).
      now destruct (last_value _ _).
    + exact (load_lines_keys _ _ _ H).
  - injection H as <-. split; [constructor|]. split; reflexivity.
Qed.

Lemma load_config_later_value_wins_witness :
  let text := "a=1" ++ String Str.line_feed ("b=2" ++ String Str.line_feed " a = 9 ") in
  Config.load_config (Some text) = Config.Config [("a", "9"); ("b", "2")]
  /\ flat_map setting (Str.file_lines text) = [("a", "1"); ("b", "2"); ("a", "9")]
  /\ NoDup (map fst [("a", "9"); ("b", "2")])
  /\ (forall key, dict_get key [("a", "9"); ("b", "2")]
                  = last_value key [("a", "1"); ("b", "2"); ("a", "9")])
  /\ dict_get "a" [("a", "9"); ("b", "2")] = Some "9".
Proof.
  intros text.
  assert (H : Config.load_config (Some text) = Config.Config [("a", "9"); ("b", "2")])
    by reflexivity.
  destruct (load_config_later_value_wins (Some text) _ H) as (H1 & H2 & _).
  split; [exact H|]. split; [reflexivity|]. split; [exact H1|]. split; [exact H2|].
  reflexivity.
Defined.

(** ** Adding and taking back *)

(** X29: adding a file and removing it again restores the store.  In a
    consistent store, [add_file] followed by [remove_file] of the returned
    id leaves records, tags, associations and log as they were; only the
    id counter has moved on, so the id is not handed out again. *)
Theorem add_then_remove_file (path metadata : string) (c : Conn) :
  consistent (working c) ->
  let id := fst (FileManager.add_file path metadata c) in
  let c' := FileManager.remove_file id (snd (FileManager.add_file path metadata c)) in
  files (working c') = files (working c)
  /\ file_tags (working c') = file_tags (working c)
  /\ tags (working c') = tags (working c)
  /\ logs (working c') = logs (working c)
  /\ files_seq (working c') = id.
Proof.
  intros Hc id c'. subst c' id. unfold FileManager.remove_file, FileManager.add_file. simpl.
  split; [|split; [|repeat split]].
  - rewrite filter_app. simpl. rewrite Z.eqb_refl. simpl. rewrite app_nil_r.
    apply filter_all. intros r Hr. apply negb_true_iff, Z.eqb_neq.
    pose proof (next_rowid_above (files_seq (working c)) _ _ (in_map file_id _ _ Hr)). lia.
  - apply filter_all. intros r Hr. apply negb_true_iff, Z.eqb_neq.
    pose proof (proj1 (has_file_In _ _) (file_tags_fk_file _ Hc r Hr)) as Hin.
    pose proof (next_rowid_above (files_seq (working c)) _ _ Hin). lia.
Qed.

Lemma add_then_remove_file_witness :
  let c := run_all [OpAddFile "/a/x.txt" ""; OpCreateTag true "auto" "string";
                    OpAssignTagToFile true 1 1 (Some "cat")] fresh in
  consistent (working c)
  /\ files (working (FileManager.remove_file 2 (snd (FileManager.add_file "/a/y.txt" "" c))))
     = files (working c)
  /\ fst (FileManager.add_file "/a/z.txt" ""
            (FileManager.remove_file 2 (snd (FileManager.add_file "/a/y.txt" "" c)))) = 3.
Proof.
  intros c.
  assert (Hr : reachable c) by (repeat apply reachable_run; exact reachable_fresh).
  assert (Hc : consistent (working c)) by exact (proj1 (reachable_settled c Hr)).
  split; [exact Hc|]. split; [|reflexivity].
  exact (proj1 (add_then_remove_file "/a/y.txt" "" c Hc)).
Defined.

(** X30: creating a tag and deleting it again restores the tags and the
    associations.  In a consistent store, [create_tag] followed by
    [delete_tag] of the returned id leaves files, tags and associations as
    they were and has written two log rows. *)
Theorem create_then_delete_tag (name ty : string) (c : Conn) :
  consistent (working c) ->
  type_ok ty = true ->
  let r := TagManager.create_tag true name ty c in
  exists id,
    fst r = Returned id
    /\ let c' := snd (TagManager.delete_tag true id (snd r)) in
       tags (working c') = tags (working c)
       /\ file_tags (working c') = file_tags (working c)
       /\ files (working c') = files (working c)
       /\ map log_action (logs (working c'))
          = app (map log_action (logs (working c)))
                ["Created tag: " ++ name ++ " (ID=" ++ Str.of_int id ++ ", type=" ++ ty ++ ")";
                 "Deleted tag with ID=" ++ Str.of_int id].
Proof.
  intros Hc Hty r. subst r. unfold TagManager.create_tag, insert_tag. rewrite Hty.
  exists (next_rowid (tags_seq (working c)) (map tag_id (tags (working c)))).
  split; [reflexivity|].
  unfold TagManager.delete_tag, with_conn. simpl.
  split; [|split; [|split]].
  - rewrite filter_app. simpl. rewrite Z.eqb_refl. simpl. rewrite app_nil_r.
    apply filter_all. intros t Ht. apply negb_true_iff, Z.eqb_neq.
    pose proof (next_rowid_above (tags_seq (working c)) _ _ (in_map tag_id _ _ Ht)). lia.
  - apply filter_all. intros ft Hft. apply negb_true_iff, Z.eqb_neq.
    pose proof (proj1 (has_tag_In _ _) (file_tags_fk_tag _ Hc ft Hft)) as Hin.
    pose proof (next_rowid_above (tags_seq (working c)) _ _ Hin). lia.
  - reflexivity.
  - rewrite !map_app. simpl. now rewrite <- app_assoc.
Qed.

Lemma create_then_delete_tag_witness :
  let c := run_all [OpAddFile "/a/x.txt" ""; OpCreateTag true "auto" "string";
                    OpAssignTagToFile true 1 1 (Some "cat")] fresh in
  consistent (working c)
  /\ type_ok "numeric" = true
  /\ exists id,
       fst (TagManager.create_tag true "pages" "numeric" c) = Returned id
       /\ tags (working (snd (TagManager.delete_tag true id
                                (snd (TagManager.create_tag true "pages" "numeric" c)))))
          = tags (working c).
Proof.
  intros c.
  assert (Hr : reachable c) by (repeat apply reachable_run; exact reachable_fresh).
  assert (Hc : consistent (working c)) by exact (proj1 (reachable_settled c Hr)).
  split; [exact Hc|]. split; [reflexivity|].
  destruct (create_then_delete_tag "pages" "numeric" c Hc eq_refl) as (id & Hid & Ht & _).
  exists id. split; [exact Hid|exact Ht].
Defined.
